(** * Financial-statement extraction pipeline (index.py)

    A shallow embedding of [index.py]: the conversion client
    ([process_html_file_with_url], [process_html_file_chunked]), the three
    statement extractors and the batch driver [main], with the properties
    of the specification proved or refuted about them.

    Modelling conventions.
    - A Python [dict] is an association list in insertion order
      ([dict.items()] iterates in that order); keys of a real dict are
      unique, which theorems that need it assume as [NoDup (map fst d)].
    - The converted document is typed as the specification's data model
      types it: a dict from section name to a dict from line-item label to
      a list of observation records, each record a dict of scalars.
    - A Python [str] is the string of the bytes of its UTF-8 encoding;
      slicing counts characters, not bytes.
    - The scalars of an observation record (period, date, value) are
      strings, as the conversion service reports them.  Numbers and nested
      objects in these fields are outside the model: pandas treats numeric
      labels and cells by dtype.
    - A body of the service parses to the JSON null or to an object of
      the data model's shape; other JSON values are outside the model.
    - A [pandas.DataFrame] is its list of column labels and its list of
      rows (row label, cells in column order).
    - Python code that can raise returns an [outcome]; code that logs,
      calls the remote service, sleeps or writes files runs in the monad
      [M] over the [World], with the file system and the remote service
      given by an environment [Env]. *)

From Stdlib Require Import String Ascii List ZArith Lia Bool Arith.
From Stdlib Require Import DecimalString.
Import ListNotations.

Local Open Scope string_scope.
Local Open Scope list_scope.

(* ------------------------------------------------------------------ *)
(** ** Strings *)

Module Str.

(** An f-string: the concatenation of its pieces. *)
Definition fstr (parts : list string) : string := String.concat "" parts.

(** [s.split(sep)] for a one-character separator. *)
Fixpoint split (sep : ascii) (s : string) : list string :=
  match s with
  | EmptyString => [EmptyString]
  | String c s' =>
      if Ascii.eqb c sep then EmptyString :: split sep s'
      else match split sep s' with
           | h :: t => String c h :: t
           | [] => [String c EmptyString]
           end
  end.

(** A byte that continues a character begun by an earlier byte
    ([10xxxxxx]). *)
Definition is_continuation (c : ascii) : bool :=
  match c with
  | Ascii _ _ _ _ _ _ false true => true
  | _ => false
  end.

(** [s[:n]]: the first [n] characters, each with all its bytes. *)
Fixpoint take (n : nat) (s : string) : string :=
  match s with
  | EmptyString => EmptyString
  | String c s' =>
      if is_continuation c then String c (take n s')
      else match n with
           | O => EmptyString
           | S n' => String c (take n' s')
           end
  end.

(** [os.path.basename]: what follows the last slash. *)
Definition basename (p : string) : string := last (split "/" p) EmptyString.

(** [str(n)] for an [int]. *)
Definition of_Z (z : Z) : string := NilZero.string_of_int (Z.to_int z).
Definition of_nat (n : nat) : string := of_Z (Z.of_nat n).

(** [a in b] for strings. *)
Definition Substring (a b : string) : Prop :=
  exists pre post, b = (pre ++ a ++ post)%string.

End Str.

(* ------------------------------------------------------------------ *)
(** ** Python values: scalars, dicts, exceptions *)

(** A scalar of an observation record: a string. *)
Inductive scalar : Type :=
| SStr (s : string).

Definition scalar_eq_dec (a b : scalar) : {a = b} + {a <> b}.
Proof. decide equality; apply string_dec. Defined.

Definition dict (V : Type) : Type := list (string * V).

Fixpoint dict_get {V : Type} (k : string) (d : dict V) : option V :=
  match d with
  | [] => None
  | (k', v) :: d' => if string_dec k k' then Some v else dict_get k d'
  end.

(** [k in d] *)
Definition dict_contains {V : Type} (k : string) (d : dict V) : bool :=
  match dict_get k d with Some _ => true | None => false end.

(** [d[k] = v]: an existing key keeps its position. *)
Fixpoint dict_set {V : Type} (k : string) (v : V) (d : dict V) : dict V :=
  match d with
  | [] => [(k, v)]
  | (k', v') :: d' =>
      if string_dec k k' then (k', v) :: d' else (k', v') :: dict_set k v d'
  end.

Definition observation : Type := dict scalar.
Definition section : Type := dict (list observation).
Definition ConversionResult : Type := dict section.

Inductive exn : Type :=
| KeyError (key : string)
| ValueError (msg : string)
| Exception_ (msg : string).

(** [str(e)] *)
Definition exn_str (e : exn) : string :=
  match e with
  | KeyError k => Str.fstr ["'"; k; "'"]
  | ValueError m => m
  | Exception_ m => m
  end.

Inductive outcome (A : Type) : Type :=
| Ret (a : A)
| Raise (e : exn).
Arguments Ret {A} a.
Arguments Raise {A} e.

Definition obind {A B : Type} (o : outcome A) (f : A -> outcome B) : outcome B :=
  match o with
  | Ret a => f a
  | Raise e => Raise e
  end.

(** A [for] loop whose body may raise, threading the loop state. *)
Fixpoint ofold {A S : Type} (body : S -> A -> outcome S) (l : list A) (s : S)
  : outcome S :=
  match l with
  | [] => Ret s
  | x :: l' => obind (body s x) (ofold body l')
  end.

(* ------------------------------------------------------------------ *)
(** ** pandas.DataFrame *)

Inductive cell : Type :=
| CNone              (* Python None, from [df[col] = None] *)
| CNaN               (* the filler of a row added by enlargement *)
| CVal (v : scalar).

Record DataFrame : Type := mkDF {
  columns : list scalar;
  rows : list (string * list cell)
}.

Module DF.

(** [pd.DataFrame()] *)
Definition empty : DataFrame := mkDF [] [].

Definition index (df : DataFrame) : list string := map fst (rows df).

Fixpoint index_of (c : scalar) (l : list scalar) : option nat :=
  match l with
  | [] => None
  | c' :: l' =>
      if scalar_eq_dec c c' then Some 0
      else option_map S (index_of c l')
  end.

(** [c in df.columns] *)
Definition has_column (c : scalar) (df : DataFrame) : bool :=
  match index_of c (columns df) with Some _ => true | None => false end.

Fixpoint has_row (r : string) (rs : list (string * list cell)) : bool :=
  match rs with
  | [] => false
  | (r', _) :: rs' => if string_dec r r' then true else has_row r rs'
  end.

Fixpoint set_nth {A : Type} (n : nat) (x : A) (l : list A) : list A :=
  match l, n with
  | [], _ => []
  | _ :: l', O => x :: l'
  | y :: l', S n' => y :: set_nth n' x l'
  end.

(** [df[c] = v] for a scalar [v]: an existing column is overwritten in
    place on every row, a new one is appended on the right. *)
Definition setitem (c : scalar) (v : cell) (df : DataFrame) : DataFrame :=
  match index_of c (columns df) with
  | Some i =>
      mkDF (columns df) (map (fun r => (fst r, set_nth i v (snd r))) (rows df))
  | None =>
      mkDF (columns df ++ [c]) (map (fun r => (fst r, snd r ++ [v])) (rows df))
  end.

(** [df.loc[item, c] = v] for a column that exists (the extractors create
    it on the line before): the cell of an existing row is overwritten; a
    missing row is appended, NaN everywhere but at [c]. *)
Definition loc_set (item : string) (c : scalar) (v : cell) (df : DataFrame)
  : DataFrame :=
  match index_of c (columns df) with
  | Some i =>
      if has_row item (rows df) then
        mkDF (columns df)
             (map (fun r => if string_dec item (fst r)
                            then (fst r, set_nth i v (snd r)) else r)
                  (rows df))
      else
        mkDF (columns df)
             (rows df ++ [(item, set_nth i v (repeat CNaN (length (columns df))))])
  | None => df
  end.

(** The cell of a row under column [c]. *)
Definition cell_of (cols : list scalar) (cs : list cell) (c : scalar)
  : option cell :=
  match index_of c cols with
  | Some i => nth_error cs i
  | None => None
  end.

Fixpoint find_row (r : string) (rs : list (string * list cell))
  : option (list cell) :=
  match rs with
  | [] => None
  | (r', cs) :: rs' => if string_dec r r' then Some cs else find_row r rs'
  end.

(** [df.loc[item, c]] *)
Definition loc_get (df : DataFrame) (item : string) (c : scalar)
  : option cell :=
  match find_row item (rows df) with
  | Some cs => cell_of (columns df) cs c
  | None => None
  end.

(** The column [c] read down the rows. *)
Definition column (df : DataFrame) (c : scalar) : list (option cell) :=
  map (fun r => cell_of (columns df) (snd r) c) (rows df).

(** Labels without repetition, in first-seen order, after those of [seen]. *)
Fixpoint union {A : Type} (eq_dec : forall a b : A, {a = b} + {a <> b})
         (seen l : list A) : list A :=
  match l with
  | [] => seen
  | x :: l' =>
      if in_dec eq_dec x seen then union eq_dec seen l'
      else union eq_dec (seen ++ [x]) l'
  end.

Definition distinct {A : Type} (eq_dec : forall a b : A, {a = b} + {a <> b})
           (l : list A) : list A := union eq_dec [] l.

(** [pd.concat(dfs)]: rows stacked in order under the union of the
    columns (first-seen order), NaN where a table lacks a column;
    [ValueError] on an empty list. *)
Definition realign (cols new_cols : list scalar) (cs : list cell) : list cell :=
  map (fun c => match cell_of cols cs c with Some x => x | None => CNaN end)
      new_cols.

Definition concat_rows (dfs : list DataFrame) : DataFrame :=
  let cols := distinct scalar_eq_dec (flat_map columns dfs) in
  mkDF cols
       (flat_map (fun df => map (fun r => (fst r, realign (columns df) cols (snd r)))
                                (rows df)) dfs).

Definition concat (dfs : list DataFrame) : outcome DataFrame :=
  match dfs with
  | [] => Raise (ValueError "No objects to concatenate")
  | _ => Ret (concat_rows dfs)
  end.

End DF.

(* ------------------------------------------------------------------ *)
(** ** The world: log, remote calls, pacing, files written *)

Inductive level : Type := INFO | WARNING | ERROR.

Inductive request : Type :=
| GET (url : string)
| POST (url : string) (headers : dict string) (payload : dict string).

Record World : Type := mkWorld {
  log : list (level * string);
  requests : list request;
  slept : list nat;
  written : list (string * DataFrame)
}.

Definition M (A : Type) : Type := World -> outcome A * World.

Definition ret {A : Type} (a : A) : M A := fun w => (Ret a, w).

Definition raise {A : Type} (e : exn) : M A := fun w => (Raise e, w).

Definition bind {A B : Type} (m : M A) (f : A -> M B) : M B :=
  fun w => match m w with
           | (Ret a, w') => f a w'
           | (Raise e, w') => (Raise e, w')
           end.

(** [try: body except Exception as e: handler(e)] *)
Definition try_except {A : Type} (body : M A) (handler : exn -> M A) : M A :=
  fun w => match body w with
           | (Ret a, w') => (Ret a, w')
           | (Raise e, w') => handler e w'
           end.

Definition lift {A : Type} (o : outcome A) : M A := fun w => (o, w).

Declare Scope py_scope.
Delimit Scope py_scope with py.
Notation "x <- m ;; k" := (bind m (fun x => k))
  (at level 61, m at next level, right associativity) : py_scope.
Notation "m ;; k" := (bind m (fun _ => k))
  (at level 61, right associativity) : py_scope.
Local Open Scope py_scope.

Definition logger (lv : level) (msg : string) : M unit :=
  fun w => (Ret tt, mkWorld (log w ++ [(lv, msg)]) (requests w) (slept w) (written w)).

Definition logger_info := logger INFO.
Definition logger_warning := logger WARNING.
Definition logger_error := logger ERROR.

(** [time.sleep(n)] *)
Definition time_sleep (n : nat) : M unit :=
  fun w => (Ret tt, mkWorld (log w) (requests w) (slept w ++ [n]) (written w)).

(** [df.to_csv(name)] *)
Definition to_csv (df : DataFrame) (name : string) : M unit :=
  fun w => (Ret tt, mkWorld (log w) (requests w) (slept w) (written w ++ [(name, df)])).

(** A [for] loop in [M]. *)
Fixpoint for_each {A S : Type} (body : S -> A -> M S) (l : list A) (s : S) : M S :=
  match l with
  | [] => ret s
  | x :: l' => s' <- body s x ;; for_each body l' s'
  end.

(* ------------------------------------------------------------------ *)
(** ** Statement extractors *)

Definition source_column : scalar := SStr "source_file".

(** The body of the inner loop: one observation of line item [item]. *)
Definition place_observation (column_key : string) (item : string)
           (df : DataFrame) (value : observation) : outcome DataFrame :=
  match dict_get column_key value with
  | None => Raise (KeyError column_key)
  | Some period =>
      let df1 := if DF.has_column period df then df
                 else DF.setitem period CNone df in
      match dict_get "value" value with
      | None => Raise (KeyError "value")
      | Some v => Ret (DF.loc_set item period (CVal v) df1)
      end
  end.

(** The two nested loops over the section's items. *)
Definition populate (column_key : string) (sec : section) (df : DataFrame)
  : outcome DataFrame :=
  ofold (fun df (iv : string * list observation) =>
           ofold (place_observation column_key (fst iv)) (snd iv) df)
        sec df.

(** The common shape of the three extractors, which differ in the section
    key, the observation key that names the column, and the wording of
    the warning. *)
Definition extract_statement (section_key column_key wording : string)
           (json_data : ConversionResult) (source_file : string)
  : M (option DataFrame) :=
  match dict_get section_key json_data with
  | None =>
      logger_warning (Str.fstr ["No "; wording; " found in "; source_file]) ;;
      ret None
  | Some sec =>
      df <- lift (populate column_key sec DF.empty) ;;
      ret (Some (DF.setitem source_column (CVal (SStr source_file)) df))
  end.

Definition extract_income_statement :=
  extract_statement "StatementsOfIncome" "period" "income statement".

Definition extract_balance_sheet :=
  extract_statement "BalanceSheets" "date" "balance sheet".

Definition extract_cash_flow :=
  extract_statement "StatementsOfCashFlows" "period" "cash flow statement".


(* ------------------------------------------------------------------ *)
(** ** The environment: file system and remote conversion service *)

Record response : Type := mkResponse {
  status_code : Z;
  text : string
}.

(** What the program cannot decide by itself.  The remote service may
    answer the same request differently each time, so [http] also takes
    the number of calls made before. *)
Record Env : Type := mkEnv {
  (* [open(path, 'r', encoding='utf-8')] and [n] times [readline()] *)
  read_lines : string -> nat -> outcome string;
  (* [open(path, 'rb').read()] *)
  read_bytes : string -> outcome (list Byte.byte);
  (* [requests.get] / [requests.post] *)
  http : nat -> request -> outcome response;
  (* [json.loads] of a body of the service: [None] for the JSON null,
     else the object *)
  json_loads : string -> outcome (option ConversionResult);
  gzip_compress : list Byte.byte -> list Byte.byte;
  b64encode : list Byte.byte -> string
}.

Definition endpoint : string := "https://api.sec-api.io/xbrl-to-json".

(** Truthiness of what the client returns: [None] and [{}] are falsy. *)
Definition truthy (result : option ConversionResult) : bool :=
  match result with
  | Some (_ :: _) => true
  | _ => false
  end.

Definition extract_accession_number_from_filename (filename : string)
  : option string :=
  let parts := Str.split "_" filename in
  if (3 <=? length parts)%nat then Some (hd "" (Str.split "." (nth 2 parts "")))
  else None.

(** The reference the URL method derives from the file name: the year
    fragment is the third underscore-separated part up to its first dot,
    [2021] when the name has fewer parts. *)
Definition year_of (file_name : string) : string :=
  if (2 <? length (Str.split "_" file_name))%nat
  then hd "" (Str.split "." (nth 2 (Str.split "_" file_name) ""))
  else "2021".

Definition sec_url_of (file_name : string) : string :=
  let cik := "320193" in
  let year := year_of file_name in
  Str.fstr ["https://www.sec.gov/Archives/edgar/data/"; cik;
            "/000032019"; year; "000056/aapl-"; year; "0327.htm"].

Definition final_url_of (file_name api_key : string) : string :=
  Str.fstr [endpoint; "?htm-url="; sec_url_of file_name; "&token="; api_key].

Section Client.
Variable E : Env.

Definition send (r : request) : M response :=
  fun w => (http E (length (requests w)) r,
            mkWorld (log w) (requests w ++ [r]) (slept w) (written w)).

Definition requests_get (url : string) : M response := send (GET url).

Definition requests_post (url : string) (headers payload : dict string)
  : M response := send (POST url headers payload).

Definition process_html_file_with_url (file_path api_key : string)
  : M (option ConversionResult) :=
  try_except
    (let file_name := Str.basename file_path in
     _first_lines <- lift (read_lines E file_path 20) ;;
     logger_info (Str.fstr ["Using URL method for "; file_name]) ;;
     let sec_url := sec_url_of file_name in
     let final_url := final_url_of file_name api_key in
     logger_info (Str.fstr ["Requesting conversion for URL: "; sec_url]) ;;
     response <- requests_get final_url ;;
     if (status_code response =? 200)%Z then
       logger_info (Str.fstr ["Successfully processed "; file_name]) ;;
       data <- lift (json_loads E (text response)) ;;
       ret data
     else
       logger_error
         (Str.fstr ["Error processing "; file_name; " with URL method: HTTP ";
                    Str.of_Z (status_code response); ", ";
                    Str.take 200 (text response)]) ;;
       ret None)
    (fun e =>
       logger_error
         (Str.fstr ["Exception while processing "; file_path; ": "; exn_str e]) ;;
       ret None).

Definition process_html_file_chunked (file_path api_key : string)
  : M (option ConversionResult) :=
  try_except
    (html_content <- lift (read_bytes E file_path) ;;
     let compressed_content := gzip_compress E html_content in
     let encoded_content := b64encode E compressed_content in
     logger_info
       (Str.fstr ["Original size: "; Str.of_nat (length html_content);
                  " bytes, Compressed: ";
                  Str.of_nat (length compressed_content); " bytes"]) ;;
     let headers := [("Content-Type", "application/json");
                     ("Content-Encoding", "gzip");
                     ("Accept-Encoding", "gzip")] in
     let payload := [("html_compressed", encoded_content);
                     ("token", api_key)] in
     logger_info
       (Str.fstr ["Sending compressed request for file: ";
                  Str.basename file_path]) ;;
     response <- requests_post endpoint headers payload ;;
     if (status_code response =? 200)%Z then
       logger_info
         (Str.fstr ["Successfully processed "; Str.basename file_path]) ;;
       data <- lift (json_loads E (text response)) ;;
       ret data
     else
       logger_error
         (Str.fstr ["Error processing "; file_path; " with compression: HTTP ";
                    Str.of_Z (status_code response); ", ";
                    Str.take 200 (text response)]) ;;
       ret None)
    (fun e =>
       logger_error
         (Str.fstr ["Exception while processing "; file_path; ": "; exn_str e]) ;;
       ret None).

(* ---------------------------------------------------------------- *)
(** ** The batch driver *)

Definition api_key : string :=
  "44ba705581dee21a56a223d5418b0d944702a85ac447047ed3a4b1f6f2ace0db".

Definition html_files : list string :=
  ["aapl_10k_1.html"; "aapl_10k_2.html"; "aapl_10k_3.html";
   "aapl_10k_4.html"; "aapl_10k_5.html"].

(** What [main] does after a falsy result of the URL method. *)
Definition alternative_methods (file_path : string) : M unit :=
  logger_info
    (Str.fstr ["URL method failed for "; file_path;
               ", trying alternative methods"]) ;;
  match extract_accession_number_from_filename file_path with
  | Some (String c s as accession_number) =>
      let cik := "320193" in
      let filing_year := ("20" ++ Str.take 2 accession_number)%string in
      let edgar_url :=
        Str.fstr ["https://www.sec.gov/Archives/edgar/data/"; cik; "/";
                  filing_year; accession_number; "/xbrl.zip"] in
      logger_info (Str.fstr ["Would process XBRL from "; edgar_url])
  | _ => ret tt
  end.

(** The body of the first loop of [main]. *)
Definition convert_document (results : dict ConversionResult)
           (file_path : string) : M (dict ConversionResult) :=
  logger_info (Str.fstr ["Processing file: "; file_path]) ;;
  result <- process_html_file_with_url file_path api_key ;;
  (if truthy result then ret tt else alternative_methods file_path) ;;
  let results' :=
    match result with
    | Some data =>
        if truthy result then dict_set (Str.basename file_path) data results
        else results
    | None => results
    end in
  time_sleep 2 ;;
  ret results'.

Definition convert_all (files : list string) : M (dict ConversionResult) :=
  for_each convert_document files [].

End Client.

Record Collected : Type := mkCollected {
  all_income_statements : list DataFrame;
  all_balance_sheets : list DataFrame;
  all_cash_flows : list DataFrame
}.

Definition append_if_not_none (l : list DataFrame) (t : option DataFrame)
  : list DataFrame :=
  match t with
  | Some df => l ++ [df]
  | None => l
  end.

(** The body of the second loop of [main]. *)
Definition extract_document (acc : Collected) (entry : string * ConversionResult)
  : M Collected :=
  let (file_name, data) := entry in
  income_statement <- extract_income_statement data file_name ;;
  balance_sheet <- extract_balance_sheet data file_name ;;
  cash_flow <- extract_cash_flow data file_name ;;
  ret (mkCollected
         (append_if_not_none (all_income_statements acc) income_statement)
         (append_if_not_none (all_balance_sheets acc) balance_sheet)
         (append_if_not_none (all_cash_flows acc) cash_flow)).

Definition extract_all (results : dict ConversionResult) : M Collected :=
  for_each extract_document results (mkCollected [] [] []).

(** [if tables: pd.concat(tables).to_csv(file); logger.info(...)] *)
Definition save_combined (tables : list DataFrame) (file what : string) : M unit :=
  match tables with
  | [] => ret tt
  | _ :: _ =>
      combined <- lift (DF.concat tables) ;;
      to_csv combined file ;;
      logger_info (Str.fstr ["Combined "; what; " saved to '"; file; "'"])
  end.

Definition income_csv : string := "combined_income_statement.csv".
Definition balance_csv : string := "combined_balance_sheet.csv".
Definition cash_flow_csv : string := "combined_cash_flow.csv".

Definition combine_all (c : Collected) : M unit :=
  save_combined (all_income_statements c) income_csv "income statement" ;;
  save_combined (all_balance_sheets c) balance_csv "balance sheet" ;;
  save_combined (all_cash_flows c) cash_flow_csv "cash flow statement".

Definition report (results : dict ConversionResult) (c : Collected) : M unit :=
  logger_info (Str.fstr ["Total files processed: "; Str.of_nat (length results)]) ;;
  logger_info (Str.fstr ["Income statements extracted: ";
                         Str.of_nat (length (all_income_statements c))]) ;;
  logger_info (Str.fstr ["Balance sheets extracted: ";
                         Str.of_nat (length (all_balance_sheets c))]) ;;
  logger_info (Str.fstr ["Cash flow statements extracted: ";
                         Str.of_nat (length (all_cash_flows c))]).

Definition main_on (E : Env) (files : list string) : M unit :=
  results <- convert_all E files ;;
  collected <- extract_all results ;;
  combine_all collected ;;
  report results collected.

Definition main (E : Env) : M unit := main_on E html_files.

(* ------------------------------------------------------------------ *)
(** ** Vocabulary of the statements *)

(** The three statement kinds and the extractor of each. *)
Inductive kind : Type := Income | Balance | CashFlow.

Definition extract (k : kind)
  : ConversionResult -> string -> M (option DataFrame) :=
  match k with
  | Income => extract_income_statement
  | Balance => extract_balance_sheet
  | CashFlow => extract_cash_flow
  end.

(** The section each extractor looks up and the observation field it
    names its columns by. *)
Definition section_key (k : kind) : string :=
  match k with
  | Income => "StatementsOfIncome"
  | Balance => "BalanceSheets"
  | CashFlow => "StatementsOfCashFlows"
  end.

Definition column_key (k : kind) : string :=
  match k with
  | Income => "period"
  | Balance => "date"
  | CashFlow => "period"
  end.

Definition tables_of (k : kind) (c : Collected) : list DataFrame :=
  match k with
  | Income => all_income_statements c
  | Balance => all_balance_sheets c
  | CashFlow => all_cash_flows c
  end.

Definition csv_name (k : kind) : string :=
  match k with
  | Income => income_csv
  | Balance => balance_csv
  | CashFlow => cash_flow_csv
  end.

(** Every row has one cell per column. *)
Definition rectangular (df : DataFrame) : Prop :=
  Forall (fun r => length (snd r) = length (columns df)) (rows df).

(** An observation record that has the field naming its column and the
    field [value]; a section all of whose observations are such. *)
Definition obs_ok (column_key : string) (o : observation) : bool :=
  dict_contains column_key o && dict_contains "value" o.

Definition section_ok (column_key : string) (sec : section) : bool :=
  forallb (fun iv => forallb (obs_ok column_key) (snd iv)) sec.







(** The loops of an extractor seen as a sequence of (label, period, value)
    placements. *)
Definition entry : Type := string * scalar * scalar.

Definition place (df : DataFrame) (e : entry) : DataFrame :=
  let '(item, p, v) := e in
  DF.loc_set item p (CVal v)
             (if DF.has_column p df then df else DF.setitem p CNone df).

Definition entry_of (column_key item : string) (o : observation) : list entry :=
  match dict_get column_key o, dict_get "value" o with
  | Some p, Some v => [(item, p, v)]
  | _, _ => []
  end.

Definition entries (column_key : string) (sec : section) : list entry :=
  flat_map (fun iv : string * list observation =>
              flat_map (entry_of column_key (fst iv)) (snd iv)) sec.



(** The table an extractor builds from a section whose observations are
    all complete. *)
Definition table_of (column_key : string) (sec : section) (src : string)
  : DataFrame :=
  DF.setitem source_column (CVal (SStr src))
             (fold_left place (entries column_key sec) DF.empty).


(** A computation that writes no file, and one that never raises. *)
Definition keeps_files {A : Type} (m : M A) : Prop :=
  forall w, written (snd (m w)) = written w.

Definition never_raises {A : Type} (m : M A) : Prop :=
  forall w, exists a w', m w = (Ret a, w').

(** The files the last phase of [main] writes for what was collected. *)
Definition output_of (k : kind) (c : Collected) : list (string * DataFrame) :=
  match tables_of k c with
  | [] => []
  | _ :: _ => [(csv_name k, DF.concat_rows (tables_of k c))]
  end.

Definition outputs (c : Collected) : list (string * DataFrame) :=
  output_of Income c ++ output_of Balance c ++ output_of CashFlow c.

(** The table an extractor returns for a document, if it returns one. *)
Definition extracted (k : kind) (doc : string * ConversionResult) (w : World)
  : list DataFrame :=
  match fst (extract k (snd doc) (fst doc) w) with
  | Ret (Some t) => [t]
  | _ => []
  end.

(** What the fallback of [main] adds to the log. *)
Definition fallback_log (file_path : string) : list (level * string) :=
  (INFO, Str.fstr ["URL method failed for "; file_path;
                   ", trying alternative methods"]) ::
  match extract_accession_number_from_filename file_path with
  | Some (String c s as accession_number) =>
      [(INFO, Str.fstr ["Would process XBRL from ";
                        "https://www.sec.gov/Archives/edgar/data/320193/";
                        "20"; Str.take 2 accession_number; accession_number;
                        "/xbrl.zip"])]
  | _ => []
  end.

Definition is_post (r : request) : bool :=
  match r with POST _ _ _ => true | GET _ => false end.

(** The ways the URL method fails with an exception [e]: reading the
    file, the remote call, or parsing the body of a 200 response. *)
Definition url_method_exception (E : Env) (file_path api_key : string)
           (w : World) (e : exn) : Prop :=
  let call := GET (final_url_of (Str.basename file_path) api_key) in
  read_lines E file_path 20 = Raise e \/
  (exists lines,
      read_lines E file_path 20 = Ret lines /\
      http E (length (requests w)) call = Raise e) \/
  (exists lines resp,
      read_lines E file_path 20 = Ret lines /\
      http E (length (requests w)) call = Ret resp /\
      status_code resp = 200%Z /\
      json_loads E (text resp) = Raise e).

(** The world in which [main] calls the URL method for a file: the one it
    started the iteration in, with the file announced in the log. *)
Definition announced (w : World) (file_path : string) : World :=
  mkWorld (log w ++ [(INFO, ("Processing file: " ++ file_path)%string)])
          (requests w) (slept w) (written w).

(* ------------------------------------------------------------------ *)
(** ** Example inputs *)

Module Demo.

Definition w0 : World := mkWorld [] [] [] [].

Definition obs (p v : string) : observation :=
  [("period", SStr p); ("value", SStr v)].

Definition dated (d v : string) : observation :=
  [("date", SStr d); ("value", SStr v)].

(** An income statement in which Revenue is reported twice for 2021. *)
Definition income : section :=
  [("Revenue", [obs "2021" "10"; obs "2020" "8"; obs "2021" "11"]);
   ("Cost", [obs "2019" "3"])].

Definition balance : section :=
  [("Assets", [dated "2021-09-25" "351"])].

Definition doc_a : ConversionResult :=
  [("StatementsOfIncome", income); ("BalanceSheets", balance)].

Definition doc_b : ConversionResult :=
  [("StatementsOfIncome", [("Revenue", [obs "2021" "7"])])].





(** A balance sheet whose observation has a period but no date. *)
Definition doc_undated : ConversionResult :=
  [("BalanceSheets", [("Assets", [obs "2021" "351"])])].






Definition page : list Byte.byte := [Byte.x3c; Byte.x68; Byte.x3e].

(** A service that answers every call with [status] and [body], whose
    200 bodies parse to [doc]; every file can be read. *)
Definition service (status : Z) (body : string) (doc : ConversionResult)
  : Env :=
  mkEnv (fun _ _ => Ret "<html>") (fun _ => Ret page)
        (fun _ _ => Ret (mkResponse status body))
        (fun _ => Ret (Some doc))
        (fun b => b) (fun _ => "PGg+").

(** A service whose 200 bodies do not parse. *)
Definition garbled : Env :=
  mkEnv (fun _ _ => Ret "<html>") (fun _ => Ret page)
        (fun _ _ => Ret (mkResponse 200 "<!doctype html>"))
        (fun _ => Raise (ValueError "Expecting value: line 1 column 1 (char 0)"))
        (fun b => b) (fun _ => "PGg+").

Definition file : string := "aapl_10k_1.html".

(** The outcome of the conversion and extraction phases, unwrapped. *)
Definition value_of {A : Type} (default : A) (r : outcome A * World) : A :=
  match fst r with Ret a => a | Raise _ => default end.

End Demo.

(* ------------------------------------------------------------------ *)
(** ** Further vocabulary: file names, traces and cells *)

(** How many times a character occurs in a string. *)
Fixpoint occurrences (c : ascii) (s : string) : nat :=
  match s with
  | EmptyString => 0
  | String c' s' => (if Ascii.eqb c' c then 1 else 0) + occurrences c s'
  end.

(** The call the URL method makes for a file, if it gets to read it. *)
Definition reference_calls (E : Env) (key file_path : string) : list request :=
  match read_lines E file_path 20 with
  | Ret _ => [GET (final_url_of (Str.basename file_path) key)]
  | Raise _ => []
  end.

(** The call the content method makes for a file whose content is
    [content]. *)
Definition content_call (E : Env) (key : string) (content : list Byte.byte)
  : request :=
  POST endpoint
       [("Content-Type", "application/json"); ("Content-Encoding", "gzip");
        ("Accept-Encoding", "gzip")]
       [("html_compressed", b64encode E (gzip_compress E content));
        ("token", key)].

(** A computation that makes no remote call and does not sleep. *)
Definition keeps_trace {A : Type} (m : M A) : Prop :=
  forall w, requests (snd (m w)) = requests w /\ slept (snd (m w)) = slept w.

(** The converted documents whose observations are all complete, for
    every kind they contain. *)
Definition complete_for (k : kind) (data : ConversionResult) : bool :=
  match dict_get (section_key k) data with
  | Some sec => section_ok (column_key k) sec
  | None => true
  end.

Definition complete (data : ConversionResult) : bool :=
  complete_for Income data && complete_for Balance data &&
  complete_for CashFlow data.

(** How many converted documents contain the section of a kind. *)
Definition with_kind (k : kind) (results : dict ConversionResult) : nat :=
  length (filter (fun doc : string * ConversionResult =>
                    dict_contains (section_key k) (snd doc)) results).

(** The four entries [main] ends its log with. *)
Definition summary (results : dict ConversionResult) : list (level * string) :=
  [(INFO, ("Total files processed: " ++ Str.of_nat (length results))%string);
   (INFO, ("Income statements extracted: " ++
           Str.of_nat (with_kind Income results))%string);
   (INFO, ("Balance sheets extracted: " ++
           Str.of_nat (with_kind Balance results))%string);
   (INFO, ("Cash flow statements extracted: " ++
           Str.of_nat (with_kind CashFlow results))%string)].

(** An observation of [label] in a section that reports [v] for [p]. *)
Definition reports (column_key : string) (sec : section) (label : string)
           (p v : scalar) : Prop :=
  exists vs o,
    In (label, vs) sec /\ In o vs /\
    dict_get column_key o = Some p /\ dict_get "value" o = Some v.

(** A cell that holds no value. *)
Definition is_empty_cell (x : cell) : bool :=
  match x with CVal _ => false | CNone | CNaN => true end.

(** A document the URL method can have returned for one of [files]. *)
Definition answered (E : Env) (files : list string) (name : string)
           (data : ConversionResult) : Prop :=
  data <> [] /\
  exists file_path n resp,
    In file_path files /\ name = Str.basename file_path /\
    http E n (GET (final_url_of name api_key)) = Ret resp /\
    status_code resp = 200%Z /\
    json_loads E (text resp) = Ret (Some data).

(** [a in b] for strings, computed. *)
Fixpoint is_prefix (a b : string) : bool :=
  match a, b with
  | EmptyString, _ => true
  | String x a', String y b' => Ascii.eqb x y && is_prefix a' b'
  | String _ _, EmptyString => false
  end.

Fixpoint contains (a b : string) : bool :=
  is_prefix a b ||
  match b with
  | EmptyString => false
  | String _ b' => contains a b'
  end.

(** A world after more entries were logged. *)
Definition warned (w : World) (added : list (level * string)) : World :=
  mkWorld (log w ++ added) (requests w) (slept w) (written w).

(* ------------------------------------------------------------------ *)
(** ** Lists, positions and cells *)

Module DFFacts.
Import DF.

Lemma index_of_nth c l i : index_of c l = Some i -> nth_error l i = Some c.
Proof.
  revert i; induction l as [|a l IH]; simpl; intros i H; [discriminate|].
  destruct (scalar_eq_dec c a) as [->|Hne].
  - now inversion H.
  - destruct (index_of c l) as [j|]; simpl in H; [|discriminate].
    inversion H; subst; simpl; now apply IH.
Qed.

Lemma index_of_lt c l i : index_of c l = Some i -> i < length l.
Proof.
  intros H; apply index_of_nth in H.
  apply nth_error_Some; congruence.
Qed.

Lemma index_of_In c l : In c l <-> exists i, index_of c l = Some i.
Proof.
  split.
  - induction l as [|a l IH]; simpl; [tauto|].
    intros H; destruct (scalar_eq_dec c a) as [->|Hne]; [now exists 0|].
    destruct H as [->|H]; [congruence|].
    destruct (IH H) as [i ->]; now exists (S i).
  - intros [i H]; apply index_of_nth in H; eapply nth_error_In; eauto.
Qed.

Lemma index_of_None c l : index_of c l = None <-> ~ In c l.
Proof.
  rewrite index_of_In; split.
  - intros H [i Hi]; congruence.
  - intros H; destruct (index_of c l) eqn:E; [|reflexivity].
    exfalso; apply H; eauto.
Qed.



Lemma index_of_inj a b l i :
  index_of a l = Some i -> index_of b l = Some i -> a = b.
Proof.
  intros Ha Hb; apply index_of_nth in Ha, Hb; congruence.
Qed.

Lemma has_column_In c df : has_column c df = true <-> In c (columns df).
Proof.
  unfold has_column; rewrite index_of_In.
  destruct (index_of c (columns df)); split; intros H;
    try discriminate; eauto.
  destruct H; discriminate.
Qed.

Lemma has_row_In r rs : has_row r rs = true <-> In r (map fst rs).
Proof.
  induction rs as [|[r' cs] rs IH]; simpl; [split; [discriminate|tauto]|].
  destruct (string_dec r r') as [->|Hne]; [tauto|].
  rewrite IH; split; [tauto|]. intros [H|H]; [congruence|assumption].
Qed.

Lemma set_nth_length {A} i (x : A) l : length (set_nth i x l) = length l.
Proof. revert i; induction l; intros [|i]; simpl; auto. Qed.

Lemma set_nth_same {A} i (x : A) l :
  i < length l -> nth_error (set_nth i x l) i = Some x.
Proof.
  revert i; induction l; intros [|i]; simpl; intros H; try lia; auto.
  apply IHl; lia.
Qed.

Lemma set_nth_other {A} i j (x : A) l :
  i <> j -> nth_error (set_nth i x l) j = nth_error l j.
Proof.
  revert i j; induction l; intros [|i] [|j]; simpl; intros H; auto; try lia.
Qed.


Lemma rectangular_empty : rectangular empty.
Proof. constructor. Qed.

Lemma setitem_rectangular c v df :
  rectangular df -> rectangular (setitem c v df).
Proof.
  unfold rectangular, setitem; intros H.
  destruct (index_of c (columns df)); simpl;
    rewrite Forall_map; eapply Forall_impl; try exact H; simpl; intros r Hr.
  - now rewrite set_nth_length.
  - rewrite !length_app; simpl; lia.
Qed.

Lemma loc_set_rectangular item c v df :
  rectangular df -> rectangular (loc_set item c v df).
Proof.
  unfold rectangular, loc_set; intros H.
  destruct (index_of c (columns df)); [|assumption].
  destruct (has_row item (rows df)); simpl.
  - rewrite Forall_map; eapply Forall_impl; try exact H; simpl; intros r Hr.
    destruct (string_dec item (fst r)); simpl; [now rewrite set_nth_length|assumption].
  - apply Forall_app; split; [assumption|].
    constructor; [|constructor]; simpl.
    now rewrite set_nth_length, repeat_length.
Qed.

Lemma setitem_columns c v df :
  columns (setitem c v df) =
  if in_dec scalar_eq_dec c (columns df) then columns df else columns df ++ [c].
Proof.
  unfold setitem.
  destruct (index_of c (columns df)) eqn:E; simpl;
    destruct (in_dec scalar_eq_dec c (columns df)) as [Hin|Hin]; auto.
  - exfalso; apply Hin, index_of_In; eauto.
  - apply index_of_None in E; contradiction.
Qed.

Lemma setitem_index c v df : index (setitem c v df) = index df.
Proof.
  unfold setitem, index.
  destruct (index_of c (columns df)); simpl; rewrite map_map; reflexivity.
Qed.

Lemma loc_set_columns item c v df : columns (loc_set item c v df) = columns df.
Proof.
  unfold loc_set.
  destruct (index_of c (columns df)); [|reflexivity].
  destruct (has_row item (rows df)); reflexivity.
Qed.

Lemma loc_set_index item c v df :
  In c (columns df) ->
  index (loc_set item c v df) =
  if in_dec string_dec item (index df) then index df else index df ++ [item].
Proof.
  unfold loc_set, index; intros Hc.
  apply index_of_In in Hc; destruct Hc as [i ->].
  destruct (has_row item (rows df)) eqn:E; simpl;
    destruct (in_dec string_dec item (map fst (rows df))) as [Hin|Hin].
  - rewrite map_map; apply map_ext; intros r.
    destruct (string_dec item (fst r)); reflexivity.
  - apply has_row_In in E; contradiction.
  - apply has_row_In in Hin; congruence.
  - now rewrite map_app.
Qed.

End DFFacts.

(* ------------------------------------------------------------------ *)
(** ** The extraction loops as a sequence of placements *)

Module PopulateFacts.
Import DF DFFacts.

Arguments place : simpl never.

Lemma ofold_app {A S} (body : S -> A -> outcome S) l1 l2 s :
  ofold body (l1 ++ l2) s = obind (ofold body l1 s) (ofold body l2).
Proof.
  revert s; induction l1 as [|x l1 IH]; simpl; intros s; [reflexivity|].
  destruct (body s x); simpl; auto.
Qed.


Lemma place_observation_ok key item df o :
  obs_ok key o = true ->
  exists e, entry_of key item o = [e] /\
            place_observation key item df o = Ret (place df e).
Proof.
  unfold obs_ok, dict_contains, entry_of, place_observation.
  destruct (dict_get key o) as [p|]; simpl; [|discriminate].
  destruct (dict_get "value" o) as [v|]; simpl; [|discriminate].
  intros _; eexists; split; reflexivity.
Qed.

Lemma inner_loop_ok key item vs df :
  forallb (obs_ok key) vs = true ->
  ofold (place_observation key item) vs df =
  Ret (fold_left place (flat_map (entry_of key item) vs) df).
Proof.
  revert df; induction vs as [|o vs IH]; simpl; intros df H; [reflexivity|].
  apply andb_prop in H; destruct H as [Ho Hvs].
  destruct (place_observation_ok key item df o Ho) as [e [-> ->]]; simpl.
  now apply IH.
Qed.

Lemma populate_ok key sec df :
  section_ok key sec = true ->
  populate key sec df = Ret (fold_left place (entries key sec) df).
Proof.
  unfold populate, entries, section_ok.
  revert df; induction sec as [|iv sec IH]; simpl; intros df H; [reflexivity|].
  apply andb_prop in H; destruct H as [Hiv Hsec].
  rewrite inner_loop_ok by assumption; simpl.
  rewrite fold_left_app. now apply IH.
Qed.



Lemma place_rectangular df e : rectangular df -> rectangular (place df e).
Proof.
  destruct e as [[item p] v]; unfold place; intros H.
  apply loc_set_rectangular.
  destruct (has_column p df); [assumption|now apply setitem_rectangular].
Qed.

Lemma fold_place_rectangular es df :
  rectangular df -> rectangular (fold_left place es df).
Proof.
  revert df; induction es; simpl; intros; auto using place_rectangular.
Qed.

(** Columns and index grow by first-seen periods and labels. *)

Lemma place_columns df item p v :
  columns (place df (item, p, v)) =
  if in_dec scalar_eq_dec p (columns df) then columns df
  else columns df ++ [p].
Proof.
  unfold place; rewrite loc_set_columns.
  destruct (has_column p df) eqn:E.
  - apply has_column_In in E.
    destruct (in_dec scalar_eq_dec p (columns df)); [reflexivity|contradiction].
  - apply setitem_columns.
Qed.

Lemma place_index df item p v :
  index (place df (item, p, v)) =
  if in_dec string_dec item (index df) then index df else index df ++ [item].
Proof.
  unfold place; rewrite loc_set_index.
  - destruct (has_column p df); [reflexivity|now rewrite setitem_index].
  - destruct (has_column p df) eqn:E; [now apply has_column_In|].
    rewrite setitem_columns.
    destruct (in_dec scalar_eq_dec p (columns df)); [assumption|].
    apply in_or_app; right; now left.
Qed.

Lemma fold_place_columns es df :
  columns (fold_left place es df) =
  union scalar_eq_dec (columns df) (map (fun e : entry => snd (fst e)) es).
Proof.
  revert df; induction es as [|[[item p] v] es IH]; simpl; intros df;
    [reflexivity|].
  rewrite IH, place_columns.
  destruct (in_dec scalar_eq_dec p (columns df)); reflexivity.
Qed.

Lemma fold_place_index es df :
  index (fold_left place es df) =
  union string_dec (index df) (map (fun e : entry => fst (fst e)) es).
Proof.
  revert df; induction es as [|[[item p] v] es IH]; simpl; intros df;
    [reflexivity|].
  rewrite IH, place_index.
  destruct (in_dec string_dec item (index df)); reflexivity.
Qed.

End PopulateFacts.

(* ------------------------------------------------------------------ *)
(** ** Reading cells after an update *)

Module CellFacts.
Import DF DFFacts PopulateFacts.

Lemma find_row_map r (g : string -> list cell -> list cell) rs :
  find_row r (map (fun row => (fst row, g (fst row) (snd row))) rs) =
  option_map (g r) (find_row r rs).
Proof.
  induction rs as [|[r' cs] rs IH]; simpl; [reflexivity|].
  destruct (string_dec r r') as [->|Hne]; [reflexivity|exact IH].
Qed.

Lemma find_row_app r rs rs' :
  find_row r (rs ++ rs') =
  match find_row r rs with Some cs => Some cs | None => find_row r rs' end.
Proof.
  induction rs as [|[r' cs] rs IH]; simpl; [reflexivity|].
  destruct (string_dec r r'); [reflexivity|exact IH].
Qed.

Lemma find_row_In r rs cs : find_row r rs = Some cs -> In (r, cs) rs.
Proof.
  induction rs as [|[r' cs'] rs IH]; simpl; [discriminate|].
  destruct (string_dec r r') as [->|Hne]; intros H.
  - inversion H; now left.
  - right; now apply IH.
Qed.

Lemma has_row_find r rs :
  has_row r rs = match find_row r rs with Some _ => true | None => false end.
Proof.
  induction rs as [|[r' cs] rs IH]; simpl; [reflexivity|].
  destruct (string_dec r r'); [reflexivity|exact IH].
Qed.


Lemma find_row_loc_set r item i v rs :
  find_row r
    (map (fun row : string * list cell =>
            if string_dec item (fst row)
            then (fst row, set_nth i v (snd row)) else row) rs) =
  option_map (fun cs => if string_dec item r then set_nth i v cs else cs)
             (find_row r rs).
Proof.
  induction rs as [|[r' cs] rs IH]; simpl; [reflexivity|].
  destruct (string_dec item r') as [->|Hne]; simpl;
    destruct (string_dec r r') as [->|Hne']; simpl; try exact IH.
  - destruct (string_dec r' r'); [reflexivity|congruence].
  - destruct (string_dec item r'); [congruence|reflexivity].
Qed.







Lemma setitem_get_same c v df r x :
  rectangular df -> loc_get df r c = Some x ->
  loc_get (setitem c v df) r c = Some v.
Proof.
  unfold loc_get, setitem, cell_of; intros Hrect H.
  destruct (find_row r (rows df)) as [cs|] eqn:Er; [|discriminate].
  destruct (index_of c (columns df)) as [i|] eqn:Ei; [|discriminate]; simpl.
  rewrite (find_row_map r (fun _ cs => set_nth i v cs)), Er; simpl.
  rewrite Ei; apply set_nth_same.
  apply nth_error_Some; congruence.
Qed.


End CellFacts.

(* ------------------------------------------------------------------ *)
(** ** First-seen order, labels and periods of a section *)

Module OrderFacts.
Import DF DFFacts PopulateFacts.

Section Union.
Context {A : Type} (eq_dec : forall a b : A, {a = b} + {a <> b}).

Lemma union_incl_seen seen l x : In x seen -> In x (union eq_dec seen l).
Proof.
  revert seen; induction l as [|y l IH]; simpl; intros seen H; [assumption|].
  destruct (in_dec eq_dec y seen); apply IH; [assumption|].
  apply in_or_app; now left.
Qed.

Lemma union_In seen l x :
  In x (union eq_dec seen l) <-> In x seen \/ In x l.
Proof.
  revert seen; induction l as [|y l IH]; simpl; intros seen; [tauto|].
  destruct (in_dec eq_dec y seen) as [Hy|Hy]; rewrite IH.
  - split; [tauto|]. intros [H|[->|H]]; tauto.
  - rewrite in_app_iff; simpl. tauto.
Qed.

Lemma union_NoDup seen l : NoDup seen -> NoDup (union eq_dec seen l).
Proof.
  revert seen; induction l as [|y l IH]; simpl; intros seen H; [assumption|].
  destruct (in_dec eq_dec y seen) as [Hy|Hy]; apply IH; [assumption|].
  apply NoDup_app; [assumption|repeat constructor; simpl; tauto|].
  intros a Ha [<-|[]]; contradiction.
Qed.





End Union.





(** The placements of one label come from that label's sequence only. *)






End OrderFacts.

(* ------------------------------------------------------------------ *)
(** ** The statement extractors *)

Module ExtractFacts.
Import DF DFFacts PopulateFacts CellFacts OrderFacts.

Lemma extract_unfold (k : kind) :
  extract k = extract_statement (section_key k) (column_key k)
                (match k with
                 | Income => "income statement"
                 | Balance => "balance sheet"
                 | CashFlow => "cash flow statement"
                 end).
Proof. destruct k; reflexivity. Qed.

Lemma extract_present k json src sec w :
  dict_get (section_key k) json = Some sec ->
  extract k json src w =
  (obind (populate (column_key k) sec empty)
         (fun df => Ret (Some (setitem source_column (CVal (SStr src)) df))),
   w).
Proof.
  intros H; rewrite extract_unfold; unfold extract_statement; rewrite H.
  unfold bind, lift, ret.
  destruct (populate (column_key k) sec empty); reflexivity.
Qed.

Lemma extract_complete k json src sec w :
  dict_get (section_key k) json = Some sec ->
  section_ok (column_key k) sec = true ->
  extract k json src w = (Ret (Some (table_of (column_key k) sec src)), w).
Proof.
  intros H Hok; rewrite (extract_present _ _ _ _ _ H).
  now rewrite populate_ok.
Qed.

Lemma extract_absent k json src w :
  dict_get (section_key k) json = None ->
  exists msg,
    extract k json src w =
    (Ret None,
     mkWorld (log w ++ [(WARNING, msg)]) (requests w) (slept w) (written w)).
Proof.
  intros H; rewrite extract_unfold; unfold extract_statement; rewrite H.
  eexists; reflexivity.
Qed.

(** The result of an extractor does not depend on the world it runs in,
    and the only trace it leaves is the warning. *)
Lemma extract_result_world k json src w w' :
  fst (extract k json src w) = fst (extract k json src w').
Proof.
  destruct (dict_get (section_key k) json) as [sec|] eqn:E.
  - now rewrite !(extract_present _ _ _ _ _ E).
  - destruct (extract_absent k json src w E) as [m ->].
    destruct (extract_absent k json src w' E) as [m' ->]. reflexivity.
Qed.


Lemma populate_complete key sec df df' :
  populate key sec df = Ret df' -> section_ok key sec = true.
Proof.
  unfold populate, section_ok.
  revert df; induction sec as [|[item vs] sec IH]; simpl; intros df H;
    [reflexivity|].
  destruct (ofold (place_observation key item) vs df) as [df1|] eqn:E;
    simpl in H; [|discriminate].
  rewrite (IH _ H), andb_true_r.
  clear H IH; revert df E; induction vs as [|o vs IH]; simpl; intros df E;
    [reflexivity|].
  destruct (place_observation key item df o) as [df2|] eqn:Eo;
    simpl in E; [|discriminate].
  rewrite (IH _ E), andb_true_r.
  unfold place_observation in Eo; unfold obs_ok, dict_contains.
  destruct (dict_get key o); [|discriminate].
  destruct (dict_get "value" o); [reflexivity|discriminate].
Qed.

Lemma ofold_raise {A S} (body : S -> A -> outcome S) (Q : exn -> Prop) :
  (forall s x e, body s x = Raise e -> Q e) ->
  forall l s e, ofold body l s = Raise e -> Q e.
Proof.
  intros Hbody; induction l as [|x l IH]; simpl; intros s e H; [discriminate|].
  destruct (body s x) eqn:E; simpl in H; eauto.
  inversion H; subst; eauto.
Qed.

Lemma populate_raise key sec df e :
  populate key sec df = Raise e -> e = KeyError key \/ e = KeyError "value".
Proof.
  unfold populate; revert df e.
  apply (ofold_raise _ (fun e => e = KeyError key \/ e = KeyError "value")).
  intros s iv; revert s.
  apply (ofold_raise _ (fun e => e = KeyError key \/ e = KeyError "value")).
  intros s o e; unfold place_observation.
  destruct (dict_get key o); [|intros H; inversion H; now left].
  destruct (dict_get "value" o); [discriminate|intros H; inversion H; now right].
Qed.

End ExtractFacts.

Import ExtractFacts.


(** C3.  When the key of a kind is absent from the converted document,
    the extractor returns [None] without raising, and the only effect is
    one entry added to the log, at level WARNING, naming the kind and the
    source file. *)
Theorem extract_missing_kind (k : kind) json src w :
  dict_get (section_key k) json = None ->
  extract k json src w =
  (Ret None,
   mkWorld (log w ++
            [(WARNING,
              match k with
              | Income => "No income statement found in " ++ src
              | Balance => "No balance sheet found in " ++ src
              | CashFlow => "No cash flow statement found in " ++ src
              end%string)])
           (requests w) (slept w) (written w)).
Proof.
  intros H; rewrite extract_unfold; unfold extract_statement; rewrite H.
  destruct k; reflexivity.
Qed.



(* ------------------------------------------------------------------ *)
(** ** Concatenation *)

Module ConcatFacts.
Import DF DFFacts CellFacts ExtractFacts.



Lemma realign_cell cols new_cols cs c :
  In c new_cols ->
  cell_of new_cols (realign cols new_cols cs) c =
  Some (match cell_of cols cs c with Some x => x | None => CNaN end).
Proof.
  intros Hin; apply index_of_In in Hin; destruct Hin as [i Hi].
  unfold cell_of at 1, realign; rewrite Hi.
  rewrite nth_error_map, (index_of_nth _ _ _ Hi); reflexivity.
Qed.


Lemma concat_rows_column dfs c :
  In c (distinct scalar_eq_dec (flat_map columns dfs)) ->
  column (concat_rows dfs) c =
  flat_map (fun t => map (fun r => Some (match cell_of (columns t) (snd r) c with
                                         | Some x => x
                                         | None => CNaN
                                         end)) (rows t)) dfs.
Proof.
  unfold concat_rows, column; simpl.
  generalize (distinct scalar_eq_dec (flat_map columns dfs)); intros cols Hin.
  induction dfs as [|t dfs IH]; simpl; [reflexivity|].
  rewrite map_app, IH, map_map; f_equal.
  apply map_ext; intros r; simpl. now apply realign_cell.
Qed.


End ConcatFacts.

(* ------------------------------------------------------------------ *)
(** ** Effects of the phases of [main] *)

Module RunFacts.
Import ExtractFacts.

Lemma keeps_ret {A} (a : A) : keeps_files (ret a).
Proof. intros w; reflexivity. Qed.

Lemma keeps_lift {A} (o : outcome A) : keeps_files (lift o).
Proof. intros w; reflexivity. Qed.

Lemma keeps_logger lv msg : keeps_files (logger lv msg).
Proof. intros w; reflexivity. Qed.

Lemma keeps_sleep n : keeps_files (time_sleep n).
Proof. intros w; reflexivity. Qed.

Lemma keeps_send E r : keeps_files (send E r).
Proof. intros w; reflexivity. Qed.

Lemma keeps_bind {A B} (m : M A) (f : A -> M B) :
  keeps_files m -> (forall a, keeps_files (f a)) -> keeps_files (bind m f).
Proof.
  intros Hm Hf w; unfold bind.
  specialize (Hm w). destruct (m w) as [[a|e] w1]; simpl in *; [|assumption].
  now rewrite Hf.
Qed.

Lemma keeps_try {A} (m : M A) (h : exn -> M A) :
  keeps_files m -> (forall e, keeps_files (h e)) -> keeps_files (try_except m h).
Proof.
  intros Hm Hh w; unfold try_except.
  specialize (Hm w). destruct (m w) as [[a|e] w1]; simpl in *; [assumption|].
  now rewrite Hh.
Qed.

Lemma keeps_for_each {A S} (body : S -> A -> M S) l :
  (forall s x, keeps_files (body s x)) ->
  forall s, keeps_files (for_each body l s).
Proof.
  intros Hb; induction l as [|x l IH]; simpl; intros s.
  - apply keeps_ret.
  - apply keeps_bind; auto.
Qed.

Ltac keeps :=
  repeat first
    [ apply keeps_ret | apply keeps_lift | apply keeps_logger
    | apply keeps_sleep | apply keeps_send
    | apply keeps_for_each; intros
    | apply keeps_try; intros
    | apply keeps_bind; intros
    | match goal with
      | |- keeps_files (if ?b then _ else _) => destruct b
      | |- keeps_files (match ?x with _ => _ end) => destruct x
      end ].

Lemma keeps_url E file_path key :
  keeps_files (process_html_file_with_url E file_path key).
Proof. unfold process_html_file_with_url, requests_get, logger_info, logger_error. keeps. Qed.

Lemma keeps_convert_document E results file_path :
  keeps_files (convert_document E results file_path).
Proof.
  unfold convert_document, alternative_methods, logger_info.
  apply keeps_bind; [keeps|intros _].
  apply keeps_bind; [apply keeps_url|intros r].
  keeps.
Qed.

Lemma keeps_convert_all E files : keeps_files (convert_all E files).
Proof.
  unfold convert_all; apply keeps_for_each; intros.
  apply keeps_convert_document.
Qed.

Lemma keeps_extract k json src : keeps_files (extract k json src).
Proof.
  rewrite extract_unfold; unfold extract_statement, logger_warning. keeps.
Qed.

Lemma keeps_extract_all results : keeps_files (extract_all results).
Proof.
  unfold extract_all; apply keeps_for_each; intros s [name data].
  unfold extract_document.
  apply keeps_bind; [apply (keeps_extract Income)|intros].
  apply keeps_bind; [apply (keeps_extract Balance)|intros].
  apply keeps_bind; [apply (keeps_extract CashFlow)|intros]. keeps.
Qed.

Lemma keeps_report results c : keeps_files (report results c).
Proof. unfold report, logger_info. keeps. Qed.

(** The conversion phase never raises. *)

Lemma total_ret {A} (a : A) : never_raises (ret a).
Proof. intros w; unfold ret; eauto. Qed.

Lemma total_logger lv msg : never_raises (logger lv msg).
Proof. intros w; unfold logger; eauto. Qed.

Lemma total_sleep n : never_raises (time_sleep n).
Proof. intros w; unfold time_sleep; eauto. Qed.

Lemma total_bind {A B} (m : M A) (f : A -> M B) :
  never_raises m -> (forall a, never_raises (f a)) -> never_raises (bind m f).
Proof.
  intros Hm Hf w; unfold bind.
  destruct (Hm w) as [a [w1 ->]]. apply Hf.
Qed.

Lemma total_try {A} (m : M A) (h : exn -> M A) :
  (forall e, never_raises (h e)) -> never_raises (try_except m h).
Proof.
  intros Hh w; unfold try_except.
  destruct (m w) as [[a|e] w1]; [eauto|apply Hh].
Qed.

Lemma total_for_each {A S} (body : S -> A -> M S) l :
  (forall s x, never_raises (body s x)) ->
  forall s, never_raises (for_each body l s).
Proof.
  intros Hb; induction l as [|x l IH]; simpl; intros s.
  - apply total_ret.
  - apply total_bind; auto.
Qed.

Ltac total :=
  repeat first
    [ apply total_ret | apply total_logger | apply total_sleep
    | apply total_for_each; intros
    | apply total_try; intros
    | apply total_bind; intros
    | match goal with
      | |- never_raises (if ?b then _ else _) => destruct b
      | |- never_raises (match ?x with _ => _ end) => destruct x
      end ].

Lemma total_url E file_path key :
  never_raises (process_html_file_with_url E file_path key).
Proof. unfold process_html_file_with_url, logger_error. total. Qed.

Lemma total_convert_document E results file_path :
  never_raises (convert_document E results file_path).
Proof.
  unfold convert_document, alternative_methods, logger_info.
  apply total_bind; [total|intros _].
  apply total_bind; [apply total_url|intros r].
  total.
Qed.

Lemma total_convert_all E files : never_raises (convert_all E files).
Proof.
  unfold convert_all; apply total_for_each; intros.
  apply total_convert_document.
Qed.

End RunFacts.

(* ------------------------------------------------------------------ *)
(** ** The extraction and combination phases *)

Module BatchFacts.
Import ExtractFacts RunFacts.

Lemma extracted_any_world k doc w w' : extracted k doc w = extracted k doc w'.
Proof.
  unfold extracted. now rewrite (extract_result_world k _ _ w w').
Qed.

Lemma append_extracted l k data name w r :
  fst (extract k data name w) = Ret r ->
  append_if_not_none l r = l ++ extracted k (name, data) w.
Proof.
  unfold extracted; simpl; intros ->.
  destruct r; simpl; [reflexivity|now rewrite app_nil_r].
Qed.

Lemma extract_document_tables acc doc w acc' w1 :
  extract_document acc doc w = (Ret acc', w1) ->
  forall k w0, tables_of k acc' = tables_of k acc ++ extracted k doc w0.
Proof.
  destruct doc as [name data]; unfold extract_document, bind, ret.
  destruct (extract_income_statement data name w) as [[ti|] wa] eqn:Ei;
    [|discriminate].
  destruct (extract_balance_sheet data name wa) as [[tb|] wb] eqn:Eb;
    [|discriminate].
  destruct (extract_cash_flow data name wb) as [[tc|] wc] eqn:Ec;
    [|discriminate].
  intros H k w0; inversion H; subst; clear H.
  destruct k; simpl.
  - rewrite (extracted_any_world Income _ w0 w).
    apply append_extracted; simpl; now rewrite Ei.
  - rewrite (extracted_any_world Balance _ w0 wa).
    apply append_extracted; simpl; now rewrite Eb.
  - rewrite (extracted_any_world CashFlow _ w0 wb).
    apply append_extracted; simpl; now rewrite Ec.
Qed.

Lemma for_each_tables results : forall acc w c w',
  for_each extract_document results acc w = (Ret c, w') ->
  forall k w0,
    tables_of k c =
    tables_of k acc ++ flat_map (fun doc => extracted k doc w0) results.
Proof.
  induction results as [|doc results IH]; simpl; intros acc w c w' H k w0.
  - inversion H; subst. now rewrite app_nil_r.
  - unfold bind in H.
    destruct (extract_document acc doc w) as [[acc1|] w1] eqn:E;
      [|discriminate].
    rewrite (IH _ _ _ _ H k w0).
    rewrite (extract_document_tables _ _ _ _ _ E k w0).
    now rewrite app_assoc.
Qed.

Lemma extract_all_tables results w c w' :
  extract_all results w = (Ret c, w') ->
  forall k w0,
    tables_of k c = flat_map (fun doc => extracted k doc w0) results.
Proof.
  unfold extract_all; intros H k w0.
  rewrite (for_each_tables _ _ _ _ _ H k w0). now destruct k.
Qed.

Lemma save_combined_run tables file what w :
  exists w',
    save_combined tables file what w = (Ret tt, w') /\
    written w' =
    written w ++ match tables with
                 | [] => []
                 | _ :: _ => [(file, DF.concat_rows tables)]
                 end.
Proof.
  destruct tables as [|t ts]; simpl.
  - eexists; split; [reflexivity|]. now rewrite app_nil_r.
  - eexists; split; reflexivity.
Qed.

Lemma combine_all_run c w :
  exists w', combine_all c w = (Ret tt, w') /\
             written w' = written w ++ outputs c.
Proof.
  unfold combine_all, bind, outputs, output_of; simpl.
  destruct (save_combined_run (all_income_statements c) income_csv
                              "income statement" w) as [w1 [-> H1]].
  destruct (save_combined_run (all_balance_sheets c) balance_csv
                              "balance sheet" w1) as [w2 [-> H2]].
  destruct (save_combined_run (all_cash_flows c) cash_flow_csv
                              "cash flow statement" w2) as [w3 [-> H3]].
  exists w3; split; [reflexivity|].
  rewrite H3, H2, H1, <- !app_assoc.
  destruct (all_income_statements c), (all_balance_sheets c),
    (all_cash_flows c); reflexivity.
Qed.

Lemma report_run results c w :
  exists w', report results c w = (Ret tt, w') /\ written w' = written w.
Proof. eexists; split; reflexivity. Qed.

Lemma main_on_run E files w results w1 c w2 :
  convert_all E files w = (Ret results, w1) ->
  extract_all results w1 = (Ret c, w2) ->
  exists w3, main_on E files w = (Ret tt, w3) /\
             written w3 = written w ++ outputs c.
Proof.
  intros Hc He; unfold main_on, bind; rewrite Hc, He.
  destruct (combine_all_run c w2) as [w3 [-> H3]].
  destruct (report_run results c w3) as [w4 [-> H4]].
  exists w4; split; [reflexivity|].
  rewrite H4, H3. f_equal.
  pose proof (keeps_extract_all results w1) as K2; rewrite He in K2.
  pose proof (keeps_convert_all E files w) as K1; rewrite Hc in K1.
  simpl in *; congruence.
Qed.

Lemma main_on_raise E files w results w1 e w2 :
  convert_all E files w = (Ret results, w1) ->
  extract_all results w1 = (Raise e, w2) ->
  main_on E files w = (Raise e, w2) /\ written w2 = written w.
Proof.
  intros Hc He; unfold main_on, bind; rewrite Hc, He; split; [reflexivity|].
  pose proof (keeps_extract_all results w1) as K2; rewrite He in K2.
  pose proof (keeps_convert_all E files w) as K1; rewrite Hc in K1.
  simpl in *; congruence.
Qed.

Lemma csv_name_inj k k' : csv_name k = csv_name k' -> k = k'.
Proof. destruct k, k'; simpl; intros H; try reflexivity; discriminate. Qed.

Lemma output_of_In k k' c df :
  In (csv_name k, df) (output_of k' c) <->
  k = k' /\ tables_of k c <> [] /\ df = DF.concat_rows (tables_of k c).
Proof.
  unfold output_of; split.
  - destruct (tables_of k' c) eqn:E; simpl; [tauto|].
    intros [H|[]]; inversion H as [[Hn Hd]].
    apply csv_name_inj in Hn; subst k'. rewrite E. repeat split; congruence.
  - intros [<- [Hne ->]].
    destruct (tables_of k c); [congruence|now left].
Qed.

Lemma outputs_In k c df :
  In (csv_name k, df) (outputs c) <->
  tables_of k c <> [] /\ df = DF.concat_rows (tables_of k c).
Proof.
  unfold outputs; rewrite !in_app_iff, !output_of_In.
  destruct k; split; intros H; try tauto;
    repeat match goal with
           | H : _ \/ _ |- _ => destruct H
           | H : _ /\ _ |- _ => destruct H
           end; try discriminate; tauto.
Qed.

Lemma map_constant {A B} (f : A -> B) (y : B) l :
  (forall x, In x l -> f x = y) -> map f l = repeat y (length l).
Proof.
  induction l as [|x l IH]; simpl; intros H; [reflexivity|].
  rewrite (H x) by now left. f_equal; apply IH; auto.
Qed.


End BatchFacts.

Import BatchFacts.


(** C6.  The conversion phase of a batch run always completes.  When the
    extraction phase completes too, the run adds to the files written
    exactly one file for each kind that has at least one collected table
    and none for a kind with zero collected tables; when the extraction
    phase raises, the run writes nothing. *)
Theorem files_only_for_collected_kinds (E : Env) (files : list string) w :
  exists results w1,
    convert_all E files w = (Ret results, w1) /\
    (forall c w2,
       extract_all results w1 = (Ret c, w2) ->
       exists new,
         written (snd (main_on E files w)) = written w ++ new /\
         forall k, (exists df, In (csv_name k, df) new) <-> tables_of k c <> []) /\
    (forall e w2,
       extract_all results w1 = (Raise e, w2) ->
       written (snd (main_on E files w)) = written w).
Proof.
  destruct (RunFacts.total_convert_all E files w) as [results [w1 Hc]].
  exists results, w1; split; [assumption|split].
  - intros c w2 He.
    destruct (main_on_run _ _ _ _ _ _ _ Hc He) as [w3 [Hm Hw]].
    exists (outputs c); rewrite Hm; split; [assumption|].
    intros k; split.
    + intros [df Hdf]. now apply outputs_In in Hdf.
    + intros Hne. exists (DF.concat_rows (tables_of k c)).
      apply outputs_In; tauto.
  - intros e w2 He.
    destruct (main_on_raise _ _ _ _ _ _ _ Hc He) as [-> Hw]. assumption.
Qed.


(* ------------------------------------------------------------------ *)
(** ** Strings of the log *)

Module StrFacts.
Import Str.

Lemma append_assoc (a b c : string) : ((a ++ b) ++ c = a ++ (b ++ c))%string.
Proof. induction a as [|x a IH]; simpl; [reflexivity|now rewrite IH]. Qed.

Lemma append_nil_r (a : string) : (a ++ "")%string = a.
Proof. induction a as [|x a IH]; simpl; [reflexivity|now rewrite IH]. Qed.

Lemma Substring_refl a : Substring a a.
Proof. exists "", ""; simpl; now rewrite append_nil_r. Qed.

Lemma Substring_trans a b c : Substring a b -> Substring b c -> Substring a c.
Proof.
  intros [p [q ->]] [p' [q' ->]].
  exists (p' ++ p)%string, (q ++ q')%string.
  now rewrite !append_assoc.
Qed.

Lemma Substring_app_l a b c : Substring a b -> Substring a (b ++ c)%string.
Proof.
  intros [p [q ->]]; exists p, (q ++ c)%string. now rewrite !append_assoc.
Qed.

Lemma Substring_app_r a b c : Substring a c -> Substring a (b ++ c)%string.
Proof.
  intros [p [q ->]]; exists (b ++ p)%string, q. now rewrite !append_assoc.
Qed.

Lemma fstr_cons x xs : fstr (x :: xs) = (x ++ fstr xs)%string.
Proof.
  unfold fstr; destruct xs as [|y ys]; simpl; [now rewrite append_nil_r|].
  reflexivity.
Qed.

Lemma Substring_fstr p parts : In p parts -> Substring p (fstr parts).
Proof.
  induction parts as [|x xs IH]; intros H; [destruct H|].
  rewrite fstr_cons. destruct H as [->|H].
  - apply Substring_app_l, Substring_refl.
  - now apply Substring_app_r, IH.
Qed.

Lemma split_nonempty sep s : split sep s <> [].
Proof.
  destruct s as [|c s]; simpl; [discriminate|].
  destruct (Ascii.eqb c sep); [discriminate|].
  destruct (split sep s); discriminate.
Qed.

(** The last piece of a split is a suffix of the string, and the whole
    string when there is only one piece. *)
Lemma split_last_suffix sep s :
  exists pre, s = (pre ++ last (split sep s) "")%string /\
              (forall h, split sep s = [h] -> pre = "").
Proof.
  induction s as [|c s [pre [Hs Hone]]].
  - exists ""; split; [reflexivity|auto].
  - simpl. destruct (Ascii.eqb c sep).
    + exists (String c pre); split.
      * pose proof (split_nonempty sep s) as Hne.
        destruct (split sep s) as [|h t]; [congruence|].
        simpl; f_equal; exact Hs.
      * intros h H; inversion H as [[Hh Ht]].
        now apply split_nonempty in Ht.
    + destruct (split sep s) as [|h [|h' t]] eqn:E.
      * now apply split_nonempty in E.
      * rewrite (Hone h eq_refl) in Hs; simpl in Hs.
        exists ""; split; [simpl; now rewrite Hs|auto].
      * exists (String c pre); split; [simpl; f_equal; exact Hs|].
        intros x H; discriminate.
Qed.

Lemma basename_Substring p : Substring (basename p) p.
Proof.
  destruct (split_last_suffix "/" p) as [pre [H _]].
  exists pre, ""; rewrite append_nil_r; exact H.
Qed.

Lemma is_prefix_app a post : is_prefix a (a ++ post) = true.
Proof.
  induction a as [|x a IH]; simpl; [reflexivity|].
  now rewrite Ascii.eqb_refl, IH.
Qed.

Lemma Substring_contains a b : Substring a b -> contains a b = true.
Proof.
  intros [pre [post ->]].
  induction pre as [|x pre IH]; simpl.
  - destruct (a ++ post)%string eqn:E; simpl.
    + destruct a; [reflexivity|discriminate].
    + rewrite <- E, is_prefix_app. reflexivity.
  - rewrite IH. apply orb_true_r.
Qed.

End StrFacts.

(* ------------------------------------------------------------------ *)
(** ** The URL method, case by case *)

Module ClientFacts.
Import StrFacts.

Arguments Str.fstr : simpl never.
Arguments final_url_of : simpl never.
Arguments sec_url_of : simpl never.

Section Cases.
Variables (E : Env) (file_path key : string) (w : World).
Let file_name := Str.basename file_path.
Let call := GET (final_url_of file_name key).
Let started : level * string :=
  (INFO, Str.fstr ["Using URL method for "; file_name]).
Let requesting : level * string :=
  (INFO, Str.fstr ["Requesting conversion for URL: "; sec_url_of file_name]).
Let failed (e : exn) : level * string :=
  (ERROR, Str.fstr ["Exception while processing "; file_path; ": "; exn_str e]).

Lemma url_read_fail e :
  read_lines E file_path 20 = Raise e ->
  process_html_file_with_url E file_path key w =
  (Ret None,
   mkWorld (log w ++ [failed e]) (requests w) (slept w) (written w)).
Proof.
  intros H; unfold process_html_file_with_url, try_except, bind, lift.
  rewrite H; reflexivity.
Qed.

Lemma url_transport_fail lines e :
  read_lines E file_path 20 = Ret lines ->
  http E (length (requests w)) call = Raise e ->
  process_html_file_with_url E file_path key w =
  (Ret None,
   mkWorld (log w ++ [started; requesting; failed e])
           (requests w ++ [call]) (slept w) (written w)).
Proof.
  intros H1 H2; unfold process_html_file_with_url, try_except, bind, lift.
  rewrite H1; simpl. unfold requests_get, send; simpl.
  fold file_name; fold call; rewrite H2; simpl.
  unfold logger_error, logger, ret; simpl.
  now rewrite <- !app_assoc.
Qed.

Lemma url_status_fail lines resp :
  read_lines E file_path 20 = Ret lines ->
  http E (length (requests w)) call = Ret resp ->
  status_code resp <> 200%Z ->
  process_html_file_with_url E file_path key w =
  (Ret None,
   mkWorld (log w ++
            [started; requesting;
             (ERROR,
              Str.fstr ["Error processing "; file_name;
                        " with URL method: HTTP ";
                        Str.of_Z (status_code resp); ", ";
                        Str.take 200 (text resp)])])
           (requests w ++ [call]) (slept w) (written w)).
Proof.
  intros H1 H2 H3; unfold process_html_file_with_url, try_except, bind, lift.
  rewrite H1; simpl. unfold requests_get, send; simpl.
  fold file_name; fold call; rewrite H2; simpl.
  apply Z.eqb_neq in H3; rewrite H3; simpl.
  now rewrite <- !app_assoc.
Qed.

Lemma url_parse_fail lines resp e :
  read_lines E file_path 20 = Ret lines ->
  http E (length (requests w)) call = Ret resp ->
  status_code resp = 200%Z ->
  json_loads E (text resp) = Raise e ->
  process_html_file_with_url E file_path key w =
  (Ret None,
   mkWorld (log w ++
            [started; requesting;
             (INFO, Str.fstr ["Successfully processed "; file_name]);
             failed e])
           (requests w ++ [call]) (slept w) (written w)).
Proof.
  intros H1 H2 H3 H4;
    unfold process_html_file_with_url, try_except, bind, lift.
  rewrite H1; simpl. unfold requests_get, send; simpl.
  fold file_name; fold call; rewrite H2; simpl.
  rewrite H3; simpl. rewrite H4; simpl.
  unfold logger_error, logger, ret; simpl.
  now rewrite <- !app_assoc.
Qed.

Lemma url_success lines resp data :
  read_lines E file_path 20 = Ret lines ->
  http E (length (requests w)) call = Ret resp ->
  status_code resp = 200%Z ->
  json_loads E (text resp) = Ret data ->
  process_html_file_with_url E file_path key w =
  (Ret data,
   mkWorld (log w ++
            [started; requesting;
             (INFO, Str.fstr ["Successfully processed "; file_name])])
           (requests w ++ [call]) (slept w) (written w)).
Proof.
  intros H1 H2 H3 H4;
    unfold process_html_file_with_url, try_except, bind, lift.
  rewrite H1; simpl. unfold requests_get, send; simpl.
  fold file_name; fold call; rewrite H2; simpl.
  rewrite H3; simpl. rewrite H4; simpl.
  now rewrite <- !app_assoc.
Qed.

(** The URL method makes at most one call, a GET by reference. *)
Lemma url_requests :
  let w' := snd (process_html_file_with_url E file_path key w) in
  requests w' = requests w \/ requests w' = requests w ++ [call].
Proof.
  destruct (read_lines E file_path 20) as [lines|e] eqn:H1;
    [|rewrite (url_read_fail _ H1); now left].
  destruct (http E (length (requests w)) call) as [resp|e] eqn:H2;
    [|rewrite (url_transport_fail _ _ H1 H2); now right].
  destruct (Z.eq_dec (status_code resp) 200) as [H3|H3];
    [|rewrite (url_status_fail _ _ H1 H2 H3); now right].
  destruct (json_loads E (text resp)) as [data|e] eqn:H4.
  - rewrite (url_success _ _ _ H1 H2 H3 H4); now right.
  - rewrite (url_parse_fail _ _ _ H1 H2 H3 H4); now right.
Qed.
(** The content method, when the file can be read, makes one call: a POST
    of the compressed and encoded content. *)
Lemma chunked_posts_content content :
  read_bytes E file_path = Ret content ->
  requests (snd (process_html_file_chunked E file_path key w)) =
  requests w ++
  [POST endpoint
        [("Content-Type", "application/json"); ("Content-Encoding", "gzip");
         ("Accept-Encoding", "gzip")]
        [("html_compressed", b64encode E (gzip_compress E content));
         ("token", key)]].
Proof.
  intros H; unfold process_html_file_chunked, try_except, bind, lift.
  rewrite H; simpl. unfold requests_post, send; simpl.
  destruct (http E (length (requests w)) _) as [resp|e]; simpl;
    [|reflexivity].
  destruct (status_code resp =? 200)%Z; simpl; [|reflexivity].
  destruct (json_loads E (text resp)); reflexivity.
Qed.
End Cases.

End ClientFacts.

Import ClientFacts StrFacts.

(** C4, as amended.  The URL method never raises.  When the service answers with a
    status other than 200, it returns [None] and the last entry it logs is
    an ERROR naming the file, the status code and the first 200 characters
    of the body.  When reading the file, the remote call or the parsing of
    a 200 body raises, it returns [None] and the last entry it logs is an
    ERROR with the file path (of which the file name is a part) and the
    text of the exception. *)
Theorem url_method_failure_is_logged (E : Env) (file_path key : string)
        (w : World) :
  never_raises (process_html_file_with_url E file_path key) /\
  (forall lines resp,
     read_lines E file_path 20 = Ret lines ->
     http E (length (requests w))
          (GET (final_url_of (Str.basename file_path) key)) = Ret resp ->
     status_code resp <> 200%Z ->
     exists w' before,
       process_html_file_with_url E file_path key w = (Ret None, w') /\
       log w' =
       log w ++ before ++
       [(ERROR,
         ("Error processing " ++ Str.basename file_path ++
          " with URL method: HTTP " ++ Str.of_Z (status_code resp) ++ ", " ++
          Str.take 200 (text resp))%string)]) /\
  (forall e,
     url_method_exception E file_path key w e ->
     exists w' before msg,
       process_html_file_with_url E file_path key w = (Ret None, w') /\
       log w' = log w ++ before ++ [(ERROR, msg)] /\
       msg = ("Exception while processing " ++ file_path ++ ": " ++
              exn_str e)%string /\
       Str.Substring (Str.basename file_path) msg).
Proof.
  split; [apply RunFacts.total_url|split].
  - intros lines resp H1 H2 H3.
    rewrite (url_status_fail _ _ _ _ _ _ H1 H2 H3).
    eexists; eexists (_ :: _ :: nil); split; reflexivity.
  - intros e Hexc.
    assert (Hsub : Str.Substring (Str.basename file_path)
                     ("Exception while processing " ++ file_path ++ ": " ++
                      exn_str e)%string).
    { apply Substring_app_r, Substring_app_l, basename_Substring. }
    destruct Hexc as [H1|[[lines [H1 H2]]|[lines [resp [H1 [H2 [H3 H4]]]]]]].
    + rewrite (url_read_fail _ _ _ _ _ H1).
      eexists; exists nil; eexists; repeat split; try reflexivity; assumption.
    + rewrite (url_transport_fail _ _ _ _ _ _ H1 H2).
      eexists; eexists (_ :: _ :: nil); eexists;
        repeat split; try reflexivity; assumption.
    + rewrite (url_parse_fail _ _ _ _ _ _ _ H1 H2 H3 H4).
      eexists; eexists (_ :: _ :: _ :: nil); eexists;
        repeat split; try reflexivity; assumption.
Qed.

(** C1, as amended.  When the URL method returns a falsy result ([None]
    or an empty object), [main] makes no further call for the document:
    it logs that the URL method failed and, when the file name yields an
    accession fragment, the address it would process; it leaves the
    results unchanged, sleeps and moves on.  The only call made for the
    document is the GET by reference of the URL method, if it got that
    far. *)
Theorem fallback_only_logs (E : Env) results file_path w r w1 :
  process_html_file_with_url E file_path (api_key)
    (announced w file_path) = (Ret r, w1) ->
  truthy r = false ->
  convert_document E results file_path w =
  (Ret results,
   mkWorld (log w1 ++ fallback_log file_path) (requests w1)
           (slept w1 ++ [2]) (written w1)) /\
  (requests w1 = requests w \/
   requests w1 =
   requests w ++ [GET (final_url_of (Str.basename file_path) api_key)]).
Proof.
  intros Hrun Hfalsy; split.
  - unfold convert_document, bind, logger_info, logger.
    change (mkWorld (log w ++ [(INFO, Str.fstr ["Processing file: "; file_path])])
                    (requests w) (slept w) (written w))
      with (announced w file_path).
    rewrite Hrun.
    unfold alternative_methods, fallback_log, bind, logger_info, logger.
    destruct r as [[|x d]|]; try discriminate Hfalsy;
      destruct (extract_accession_number_from_filename file_path) as [[|c s]|];
      simpl; unfold time_sleep, ret; simpl;
      rewrite <- ?app_assoc; reflexivity.
  - pose proof (url_requests E file_path api_key (announced w file_path))
      as Hreq.
    rewrite Hrun in Hreq; exact Hreq.
Qed.

(* ------------------------------------------------------------------ *)
(** ** The statements at concrete inputs *)


(** C1 as stated fails: the service answers 500 to the URL method for a
    readable file, the URL method returns [None], and the iteration ends
    having made the GET by reference and no POST, whereas the content
    method would have made one. *)
Lemma fallback_makes_no_content_call :
  let E := Demo.service 500 "Internal Server Error" Demo.doc_a in
  let w' := snd (convert_document E [] Demo.file Demo.w0) in
  fst (process_html_file_with_url E Demo.file api_key
         (announced Demo.w0 Demo.file)) = Ret None /\
  requests w' = [GET (final_url_of Demo.file api_key)] /\
  ~ (exists url headers payload, In (POST url headers payload) (requests w')) /\
  (exists headers payload,
      requests (snd (process_html_file_chunked E Demo.file api_key Demo.w0)) =
      [POST endpoint headers payload]).
Proof.
  split; [reflexivity|split; [reflexivity|split]].
  - intros [url [headers [payload [H|[]]]]]; discriminate.
  - eexists; eexists; reflexivity.
Qed.

Lemma fallback_only_logs_witness :
  let E := Demo.service 500 "Internal Server Error" Demo.doc_a in
  let w1 := snd (process_html_file_with_url E Demo.file api_key
                   (announced Demo.w0 Demo.file)) in
  convert_document E [] Demo.file Demo.w0 =
  (Ret [],
   mkWorld (log w1 ++ fallback_log Demo.file) (requests w1)
           (slept w1 ++ [2]) (written w1)) /\
  (requests w1 = requests Demo.w0 \/
   requests w1 =
   requests Demo.w0 ++ [GET (final_url_of (Str.basename Demo.file) api_key)]).
Proof.
  intros E w1.
  apply (fallback_only_logs E [] Demo.file Demo.w0 None w1); reflexivity.
Defined.



Lemma extract_missing_kind_witness :
  extract CashFlow Demo.doc_a "a.html" Demo.w0 =
  (Ret None,
   mkWorld [(WARNING, "No cash flow statement found in a.html")] [] [] []).
Proof.
  apply (extract_missing_kind CashFlow Demo.doc_a "a.html" Demo.w0).
  reflexivity.
Defined.

(** C4 as stated fails for a 200 answer whose body does not parse: the
    status code and the body exist, and the ERROR entry that is logged has
    the file path and the text of the exception, not the status code or
    the body. *)
Lemma parse_failure_logs_no_status_or_body :
  let msg :=
    "Exception while processing aapl_10k_1.html: Expecting value: line 1 column 1 (char 0)" in
  http Demo.garbled 0 (GET (final_url_of Demo.file api_key)) =
  Ret (mkResponse 200 "<!doctype html>") /\
  (exists w',
      process_html_file_with_url Demo.garbled Demo.file api_key Demo.w0 =
      (Ret None, w') /\
      last (log w') (INFO, "") = (ERROR, msg) /\
      Forall (fun entry => fst entry = INFO) (removelast (log w'))) /\
  ~ Str.Substring (Str.of_Z 200) msg /\
  ~ Str.Substring (Str.take 200 "<!doctype html>") msg.
Proof.
  intros msg; split; [reflexivity|split; [|split]].
  - eexists; split; [reflexivity|split; [reflexivity|]].
    repeat constructor.
  - intros H; apply StrFacts.Substring_contains in H; discriminate.
  - intros H; apply StrFacts.Substring_contains in H; discriminate.
Qed.

Lemma url_method_failure_witness :
  exists w' before,
    process_html_file_with_url (Demo.service 404 "Not Found" Demo.doc_a)
      Demo.file api_key Demo.w0 = (Ret None, w') /\
    log w' =
    log Demo.w0 ++ before ++
    [(ERROR, "Error processing aapl_10k_1.html with URL method: HTTP 404, Not Found")].
Proof.
  apply (proj1 (proj2 (url_method_failure_is_logged
                         (Demo.service 404 "Not Found" Demo.doc_a)
                         Demo.file api_key Demo.w0))
           "<html>" (mkResponse 404 "Not Found"));
    [reflexivity|reflexivity|discriminate].
Defined.


Lemma files_only_for_collected_kinds_witness :
  let E := Demo.service 200 "{}" Demo.doc_b in
  exists new,
    written (snd (main_on E [Demo.file] Demo.w0)) = written Demo.w0 ++ new /\
    ((exists df, In (csv_name Income, df) new) /\
     ~ (exists df, In (csv_name Balance, df) new)).
Proof.
  intros E.
  destruct (files_only_for_collected_kinds E [Demo.file] Demo.w0)
    as [results [w1 [Hc [Hret _]]]].
  vm_compute in Hc; inversion Hc; subst results w1; clear Hc.
  destruct (Hret (Demo.value_of (mkCollected [] [] [])
                    (extract_all [(Demo.file, Demo.doc_b)] Demo.w0))
                 (mkWorld (log (snd (convert_all E [Demo.file] Demo.w0)) ++
                           [(WARNING, "No balance sheet found in aapl_10k_1.html");
                            (WARNING, "No cash flow statement found in aapl_10k_1.html")])
                          (requests (snd (convert_all E [Demo.file] Demo.w0)))
                          [2] []))
    as [new [Hw Hk]]; [reflexivity|].
  exists new; split; [exact Hw|split].
  - apply (Hk Income); discriminate.
  - intros H; apply (Hk Balance) in H; apply H; reflexivity.
Defined.






(* ------------------------------------------------------------------ *)
(** ** File names *)

Module NameFacts.
Import Str StrFacts.

Lemma split_length sep s : length (split sep s) = S (occurrences sep s).
Proof.
  induction s as [|c s IH]; simpl; [reflexivity|].
  destruct (Ascii.eqb c sep); simpl; [now rewrite IH|].
  destruct (split sep s) as [|h t]; simpl in *; [discriminate|assumption].
Qed.

Lemma split_pieces_bound sep c s piece :
  In piece (split sep s) -> occurrences c piece <= occurrences c s.
Proof.
  revert piece; induction s as [|x s IH]; simpl; intros piece H.
  - destruct H as [<-|[]]; simpl; lia.
  - destruct (Ascii.eqb x sep).
    + destruct H as [<-|H]; simpl; [lia|].
      specialize (IH _ H); lia.
    + destruct (split sep s) as [|h t]; simpl in *.
      * destruct H as [<-|[]]; simpl; lia.
      * destruct H as [<-|H]; simpl.
        -- specialize (IH h (or_introl eq_refl)); lia.
        -- specialize (IH _ (or_intror H)); lia.
Qed.

Lemma split_pieces_free sep s piece :
  In piece (split sep s) -> occurrences sep piece = 0.
Proof.
  revert piece; induction s as [|x s IH]; simpl; intros piece H.
  - destruct H as [<-|[]]; reflexivity.
  - destruct (Ascii.eqb x sep) eqn:E.
    + destruct H as [<-|H]; [reflexivity|now apply IH].
    + destruct (split sep s) as [|h t]; simpl in *.
      * destruct H as [<-|[]]; simpl; now rewrite E.
      * destruct H as [<-|H]; simpl.
        -- rewrite E; simpl; apply IH; now left.
        -- apply IH; now right.
Qed.

Lemma split_hd_prefix_aux sep s : forall h t,
  split sep s = h :: t -> exists post, s = (h ++ post)%string.
Proof.
  induction s as [|x s IH]; simpl; intros h t H.
  - inversion H; subst; now exists "".
  - destruct (Ascii.eqb x sep).
    + inversion H; subst; now exists (String x s).
    + destruct (split sep s) as [|h' t'] eqn:E; inversion H; subst.
      * now exists s.
      * destruct (IH h' _ eq_refl) as [post ->].
        now exists post.
Qed.

Lemma split_pieces_Substring sep s piece :
  In piece (split sep s) -> Substring piece s.
Proof.
  revert piece; induction s as [|x s IH]; simpl; intros piece H.
  - destruct H as [<-|[]]; apply Substring_refl.
  - destruct (Ascii.eqb x sep).
    + destruct H as [<-|H].
      * exists "", (String x s); reflexivity.
      * apply (Substring_app_r _ (String x "")); now apply IH.
    + destruct (split sep s) as [|h t] eqn:E; simpl in *.
      * now apply split_nonempty in E.
      * destruct H as [<-|H].
        -- destruct (split_hd_prefix_aux sep s h t E) as [post ->].
           exists "", post; reflexivity.
        -- apply (Substring_app_r _ (String x "")); apply IH; now right.
Qed.

Lemma occurrences_cons_zero c x s :
  occurrences c (String x s) = 0 -> Ascii.eqb x c = false /\ occurrences c s = 0.
Proof.
  simpl; destruct (Ascii.eqb x c); simpl; intros H; [discriminate|auto].
Qed.

Lemma split_app_free sep a t :
  occurrences sep a = 0 ->
  split sep (a ++ t) = (a ++ hd "" (split sep t))%string :: tl (split sep t).
Proof.
  induction a as [|x a IH]; intros H.
  - simpl. pose proof (split_nonempty sep t) as Hne.
    destruct (split sep t); [congruence|reflexivity].
  - apply occurrences_cons_zero in H; destruct H as [Hx Ha].
    simpl; rewrite Hx, (IH Ha); reflexivity.
Qed.

Lemma split_free sep a : occurrences sep a = 0 -> split sep a = [a].
Proof.
  intros H. rewrite <- (append_nil_r a) at 1.
  rewrite (split_app_free _ _ _ H); simpl. now rewrite append_nil_r.
Qed.

Lemma split_at_separator sep a t :
  occurrences sep a = 0 ->
  split sep (a ++ String sep t) = a :: split sep t.
Proof.
  intros H; rewrite (split_app_free _ _ _ H); simpl.
  rewrite Ascii.eqb_refl; simpl. now rewrite append_nil_r.
Qed.

Lemma hd_In {A} (d : A) l : l <> [] -> In (hd d l) l.
Proof. destruct l; [congruence|now left]. Qed.

End NameFacts.

Import NameFacts.

(** X1.  The accession fragment of a file name.  None is returned exactly
    when the name has fewer than two underscores.  A fragment that is
    returned is a part of the name without underscore or dot.  For a name
    of the shape [p1_p2_a] followed by nothing, by a dot or by an
    underscore and anything, where [p1], [p2] and [a] have no underscore
    and [a] no dot, the fragment is [a]. *)
Theorem accession_number_of_file_name (filename : string) :
  (extract_accession_number_from_filename filename = None <->
   occurrences "_" filename < 2) /\
  (forall a,
     extract_accession_number_from_filename filename = Some a ->
     occurrences "_" a = 0 /\ occurrences "." a = 0 /\
     Str.Substring a filename) /\
  (forall p1 p2 a tail,
     filename = (p1 ++ "_" ++ p2 ++ "_" ++ a ++ tail)%string ->
     occurrences "_" p1 = 0 -> occurrences "_" p2 = 0 ->
     occurrences "_" a = 0 -> occurrences "." a = 0 ->
     (tail = "" \/ exists rest, tail = String "." rest \/ tail = String "_" rest) ->
     extract_accession_number_from_filename filename = Some a).
Proof.
  unfold extract_accession_number_from_filename.
  split; [|split].
  - rewrite split_length.
    destruct (3 <=? S (occurrences "_" filename))%nat eqn:E.
    + apply Nat.leb_le in E; split; [discriminate|lia].
    + apply Nat.leb_gt in E; split; [lia|reflexivity].
  - intros a H.
    destruct (3 <=? length (Str.split "_" filename))%nat eqn:E; [|discriminate].
    apply Nat.leb_le in E. inversion H as [Ha]; clear H.
    set (third := nth 2 (Str.split "_" filename) "").
    assert (Hthird : In third (Str.split "_" filename)).
    { apply nth_In; lia. }
    assert (Hin : In (hd "" (Str.split "." third)) (Str.split "." third)).
    { apply hd_In, split_nonempty. }
    split; [|split].
    + pose proof (split_pieces_bound "." "_" third _ Hin) as Hb.
      rewrite (split_pieces_free "_" filename third Hthird) in Hb. lia.
    + now apply split_pieces_free in Hin.
    + eapply Substring_trans; [eapply split_pieces_Substring; exact Hin|].
      eapply split_pieces_Substring; exact Hthird.
  - intros p1 p2 a tail -> H1 H2 Ha Hd Htail.
    change (p1 ++ "_" ++ p2 ++ "_" ++ a ++ tail)%string
      with (p1 ++ String "_" (p2 ++ String "_" (a ++ tail)))%string.
    rewrite (split_at_separator _ _ _ H1), (split_at_separator _ _ _ H2).
    rewrite (split_app_free _ _ tail Ha); simpl.
    f_equal.
    destruct Htail as [->|[rest [->| ->]]]; simpl.
    + rewrite append_nil_r. now rewrite (split_free _ _ Hd).
    + destruct (Str.split "_" rest) as [|h t]; simpl;
        rewrite (split_at_separator _ _ _ Hd); reflexivity.
    + rewrite append_nil_r. now rewrite (split_free _ _ Hd).
Qed.

(* ------------------------------------------------------------------ *)
(** ** The two conversion methods *)

Module MethodFacts.
Import ClientFacts StrFacts RunFacts.

Arguments Str.fstr : simpl never.
Arguments final_url_of : simpl never.
Arguments sec_url_of : simpl never.

(** The URL method changes the world only by what it logs and calls. *)
Lemma url_frame E file_path key w :
  let w' := snd (process_html_file_with_url E file_path key w) in
  requests w' = requests w ++ reference_calls E key file_path /\
  slept w' = slept w /\ written w' = written w /\
  exists added, log w' = log w ++ added.
Proof.
  unfold reference_calls.
  destruct (read_lines E file_path 20) as [lines|e] eqn:H1.
  - destruct (http E (length (requests w))
                   (GET (final_url_of (Str.basename file_path) key)))
      as [resp|e] eqn:H2.
    + destruct (Z.eq_dec (status_code resp) 200) as [H3|H3].
      * destruct (json_loads E (text resp)) as [data|e] eqn:H4.
        -- rewrite (url_success _ _ _ _ _ _ _ H1 H2 H3 H4); simpl; eauto.
        -- rewrite (url_parse_fail _ _ _ _ _ _ _ H1 H2 H3 H4); simpl; eauto.
      * rewrite (url_status_fail _ _ _ _ _ _ H1 H2 H3); simpl; eauto.
    + rewrite (url_transport_fail _ _ _ _ _ _ H1 H2); simpl; eauto.
  - rewrite (url_read_fail _ _ _ _ _ H1); simpl.
    rewrite app_nil_r; eauto.
Qed.

End MethodFacts.

Import MethodFacts.

(** X2.  The URL method returns a converted document exactly when the
    file can be read, the service answers its GET with status 200 and the
    body parses to that document; one call was then made and the three
    entries it logged are all at level INFO. *)
Theorem url_method_succeeds_iff (E : Env) (file_path key : string) (w : World)
        (data : ConversionResult) :
  let call := GET (final_url_of (Str.basename file_path) key) in
  let run := process_html_file_with_url E file_path key w in
  (fst run = Ret (Some data) <->
   exists lines resp,
     read_lines E file_path 20 = Ret lines /\
     http E (length (requests w)) call = Ret resp /\
     status_code resp = 200%Z /\
     json_loads E (text resp) = Ret (Some data)) /\
  (fst run = Ret (Some data) ->
   requests (snd run) = requests w ++ [call] /\
   exists m1 m2 m3,
     log (snd run) = log w ++ [(INFO, m1); (INFO, m2); (INFO, m3)]).
Proof.
  intros call run; subst call run.
  destruct (read_lines E file_path 20) as [lines|e] eqn:H1.
  - destruct (http E (length (requests w))
                   (GET (final_url_of (Str.basename file_path) key)))
      as [resp|e] eqn:H2.
    + destruct (Z.eq_dec (status_code resp) 200) as [H3|H3].
      * destruct (json_loads E (text resp)) as [d|e] eqn:H4.
        -- rewrite (ClientFacts.url_success _ _ _ _ _ _ _ H1 H2 H3 H4); simpl.
           split; [split|].
           ++ intros H; inversion H; subst. exists lines, resp; auto.
           ++ intros [l [r [Hl [Hr [_ Hd]]]]].
              inversion Hr; subst r. rewrite H4 in Hd. now inversion Hd.
           ++ intros _; split; [reflexivity|]. eauto.
        -- rewrite (ClientFacts.url_parse_fail _ _ _ _ _ _ _ H1 H2 H3 H4); simpl.
           split; [split|]; try discriminate.
           intros [l [r [Hl [Hr [_ Hd]]]]].
           inversion Hr; subst r. rewrite H4 in Hd; discriminate.
      * rewrite (ClientFacts.url_status_fail _ _ _ _ _ _ H1 H2 H3); simpl.
        split; [split|]; try discriminate.
        intros [l [r [Hl [Hr [Hs _]]]]]. inversion Hr; subst r. contradiction.
    + rewrite (ClientFacts.url_transport_fail _ _ _ _ _ _ H1 H2); simpl.
      split; [split|]; try discriminate.
      intros [l [r [Hl [Hr _]]]]; discriminate.
  - rewrite (ClientFacts.url_read_fail _ _ _ _ _ H1); simpl.
    split; [split|]; try discriminate.
    intros [l [r [Hl _]]]; discriminate.
Qed.

(** X3.  The content method never raises.  When the file cannot be read
    it makes no call, returns [None] and logs the exception as an ERROR.
    When the file can be read it makes exactly one call, a POST to the
    endpoint carrying the encoded compressed content and the token; it
    returns a document exactly when that call is answered with status 200
    and a body that parses to that document.  When it returns [None],
    either the last entry it logged is an ERROR, or the call was answered
    with status 200 and a body that parses to null, and the last entry it
    logged is the INFO of success. *)
Theorem content_method_contract (E : Env) (file_path key : string) (w : World) :
  never_raises (process_html_file_chunked E file_path key) /\
  (forall e,
     read_bytes E file_path = Raise e ->
     process_html_file_chunked E file_path key w =
     (Ret None,
      mkWorld (log w ++
               [(ERROR, ("Exception while processing " ++ file_path ++ ": " ++
                         exn_str e)%string)])
              (requests w) (slept w) (written w))) /\
  (forall content,
     read_bytes E file_path = Ret content ->
     let run := process_html_file_chunked E file_path key w in
     requests (snd run) = requests w ++ [content_call E key content] /\
     slept (snd run) = slept w /\ written (snd run) = written w /\
     (forall data,
        fst run = Ret (Some data) <->
        exists resp,
          http E (length (requests w)) (content_call E key content) = Ret resp /\
          status_code resp = 200%Z /\
          json_loads E (text resp) = Ret (Some data)) /\
     (fst run = Ret None ->
      (exists before msg, log (snd run) = log w ++ before ++ [(ERROR, msg)]) \/
      (exists resp before,
          http E (length (requests w)) (content_call E key content) = Ret resp /\
          status_code resp = 200%Z /\
          json_loads E (text resp) = Ret None /\
          log (snd run) =
          log w ++ before ++
          [(INFO, ("Successfully processed " ++
                   Str.basename file_path)%string)]))).
Proof.
  split; [|split].
  - unfold process_html_file_chunked, logger_error. RunFacts.total.
  - intros e H. unfold process_html_file_chunked, try_except, bind, lift.
    rewrite H; reflexivity.
  - intros content H run; subst run.
    unfold process_html_file_chunked, try_except, bind, lift.
    rewrite H; simpl. unfold requests_post, send; simpl.
    fold (content_call E key content).
    destruct (http E (length (requests w)) (content_call E key content))
      as [resp|e] eqn:H2; simpl.
    + destruct (status_code resp =? 200)%Z eqn:H3; simpl.
      * apply Z.eqb_eq in H3.
        destruct (json_loads E (text resp)) as [d|e] eqn:H4; simpl.
        -- split; [reflexivity|split; [reflexivity|split; [reflexivity|split]]].
           ++ intros data; split.
              ** intros Hd; inversion Hd; subst. exists resp; auto.
              ** intros [r [Hr [_ Hd]]]. inversion Hr; subst r.
                 rewrite H4 in Hd. now inversion Hd.
           ++ intros Hd; inversion Hd; subst d. right.
              exists resp; eexists (_ :: _ :: nil).
              split; [reflexivity|split; [assumption|split; [assumption|]]].
              rewrite <- !app_assoc; reflexivity.
        -- split; [reflexivity|split; [reflexivity|split; [reflexivity|split]]].
           ++ intros data; split; [discriminate|].
              intros [r [Hr [_ Hd]]]. inversion Hr; subst r.
              rewrite H4 in Hd; discriminate.
           ++ intros _. left. eexists (_ :: _ :: _ :: nil); eexists.
              rewrite <- !app_assoc; reflexivity.
      * apply Z.eqb_neq in H3.
        split; [reflexivity|split; [reflexivity|split; [reflexivity|split]]].
        -- intros data; split; [discriminate|].
           intros [r [Hr [Hs _]]]. inversion Hr; subst r. contradiction.
        -- intros _. left. eexists (_ :: _ :: nil); eexists.
           rewrite <- !app_assoc; reflexivity.
    + split; [reflexivity|split; [reflexivity|split; [reflexivity|split]]].
      * intros data; split; [discriminate|].
        intros [r [Hr _]]; discriminate.
      * intros _. left. eexists (_ :: _ :: nil); eexists.
        rewrite <- !app_assoc; reflexivity.
Qed.

(* ------------------------------------------------------------------ *)
(** ** The results dictionary and the first loop of [main] *)

Module ConvertFacts.
Import RunFacts ClientFacts MethodFacts.

Lemma dict_get_set_same {V} k (v : V) d : dict_get k (dict_set k v d) = Some v.
Proof.
  induction d as [|[k' v'] d IH]; simpl.
  - destruct (string_dec k k); congruence.
  - destruct (string_dec k k') as [->|Hne]; simpl.
    + destruct (string_dec k' k'); congruence.
    + destruct (string_dec k k'); [contradiction|exact IH].
Qed.

Lemma dict_get_set_other {V} k k' (v : V) d :
  k' <> k -> dict_get k' (dict_set k v d) = dict_get k' d.
Proof.
  intros Hne; induction d as [|[k0 v0] d IH]; simpl.
  - destruct (string_dec k' k); [contradiction|reflexivity].
  - destruct (string_dec k k0) as [->|Hk]; simpl.
    + destruct (string_dec k' k0); [contradiction|reflexivity].
    + destruct (string_dec k' k0); [reflexivity|exact IH].
Qed.

Lemma dict_set_keys {V} k (v : V) d :
  map fst (dict_set k v d) =
  if in_dec string_dec k (map fst d) then map fst d else map fst d ++ [k].
Proof.
  induction d as [|[k' v'] d IH]; simpl; [reflexivity|].
  destruct (string_dec k k') as [->|Hne]; simpl.
  - destruct (string_dec k' k'); [reflexivity|congruence].
  - rewrite IH. destruct (string_dec k' k); [congruence|].
    destruct (in_dec string_dec k (map fst d)); reflexivity.
Qed.

Lemma dict_set_In {V} k (v : V) d k' v' :
  In (k', v') (dict_set k v d) -> (k' = k /\ v' = v) \/ In (k', v') d.
Proof.
  induction d as [|[k0 v0] d IH]; simpl.
  - intros [H|[]]; inversion H; auto.
  - destruct (string_dec k k0) as [->|Hne]; simpl.
    + intros [H|H]; [inversion H; auto|auto].
    + intros [H|H]; [auto|]. destruct (IH H); auto.
Qed.

Lemma dict_set_NoDup {V} k (v : V) d :
  NoDup (map fst d) -> NoDup (map fst (dict_set k v d)).
Proof.
  intros H; rewrite dict_set_keys.
  destruct (in_dec string_dec k (map fst d)) as [Hin|Hin]; [assumption|].
  apply NoDup_app; [assumption|repeat constructor; simpl; tauto|].
  intros a Ha [<-|[]]; contradiction.
Qed.

(** One iteration of the first loop, in terms of what the URL method
    returned. *)
Lemma convert_document_run E results file_path w :
  exists r w1,
    process_html_file_with_url E file_path api_key (announced w file_path) =
    (Ret r, w1) /\
    convert_document E results file_path w =
    (Ret (match r with
          | Some ((_ :: _) as data) => dict_set (Str.basename file_path) data results
          | _ => results
          end),
     mkWorld (log w1 ++ if truthy r then [] else fallback_log file_path)
             (requests w1) (slept w1 ++ [2]) (written w1)).
Proof.
  destruct (total_url E file_path api_key (announced w file_path))
    as [r [w1 Hrun]].
  exists r, w1; split; [assumption|].
  unfold convert_document, bind, logger_info, logger.
  change (mkWorld (log w ++ [(INFO, Str.fstr ["Processing file: "; file_path])])
                  (requests w) (slept w) (written w))
    with (announced w file_path).
  rewrite Hrun.
  unfold alternative_methods, fallback_log, bind, logger_info, logger.
  destruct r as [[|x d]|];
    try (destruct (extract_accession_number_from_filename file_path)
          as [[|c s]|]);
    simpl; unfold time_sleep, ret; simpl;
    rewrite <- ?app_assoc, ?app_nil_r; reflexivity.
Qed.

Lemma url_success_inv E file_path key w data w1 :
  process_html_file_with_url E file_path key w = (Ret (Some data), w1) ->
  exists lines resp,
    read_lines E file_path 20 = Ret lines /\
    http E (length (requests w))
         (GET (final_url_of (Str.basename file_path) key)) = Ret resp /\
    status_code resp = 200%Z /\
    json_loads E (text resp) = Ret (Some data).
Proof.
  intros H.
  destruct (read_lines E file_path 20) as [lines|e] eqn:H1;
    [|rewrite (url_read_fail _ _ _ _ _ H1) in H; discriminate].
  destruct (http E (length (requests w))
                 (GET (final_url_of (Str.basename file_path) key)))
    as [resp|e] eqn:H2;
    [|rewrite (url_transport_fail _ _ _ _ _ _ H1 H2) in H; discriminate].
  destruct (Z.eq_dec (status_code resp) 200) as [H3|H3];
    [|rewrite (url_status_fail _ _ _ _ _ _ H1 H2 H3) in H; discriminate].
  destruct (json_loads E (text resp)) as [d|e] eqn:H4;
    [|rewrite (url_parse_fail _ _ _ _ _ _ _ H1 H2 H3 H4) in H; discriminate].
  rewrite (url_success _ _ _ _ _ _ _ H1 H2 H3 H4) in H.
  inversion H; subst. exists lines, resp; auto.
Qed.

End ConvertFacts.

Import ConvertFacts.

(** X4.  When the URL method returns a non-empty document for a file,
    the iteration records it under the base name of the file: looking that
    name up gives the document, every other name is looked up as before,
    names stay unique, an existing entry of that name is replaced in
    place, nothing is added to the log after the URL method, no further
    call is made, and the iteration sleeps 2. *)
Theorem successful_conversion_is_recorded (E : Env) results file_path w
        data w1 :
  process_html_file_with_url E file_path api_key (announced w file_path) =
  (Ret (Some data), w1) ->
  data <> [] ->
  exists results',
    convert_document E results file_path w =
    (Ret results',
     mkWorld (log w1) (requests w1) (slept w1 ++ [2]) (written w1)) /\
    dict_get (Str.basename file_path) results' = Some data /\
    (forall name, name <> Str.basename file_path ->
                  dict_get name results' = dict_get name results) /\
    (NoDup (map fst results) -> NoDup (map fst results')) /\
    (In (Str.basename file_path) (map fst results) ->
     map fst results' = map fst results) /\
    (~ In (Str.basename file_path) (map fst results) ->
     map fst results' = map fst results ++ [Str.basename file_path]).
Proof.
  intros Hrun Hne.
  destruct (convert_document_run E results file_path w) as [r [w1' [Hr Hc]]].
  rewrite Hrun in Hr; inversion Hr; subst r w1'; clear Hr.
  destruct data as [|x d]; [congruence|].
  exists (dict_set (Str.basename file_path) (x :: d) results).
  simpl in Hc; rewrite app_nil_r in Hc.
  split; [exact Hc|].
  split; [apply dict_get_set_same|].
  split; [intros name Hn; now apply dict_get_set_other|].
  split; [apply dict_set_NoDup|].
  rewrite dict_set_keys.
  destruct (in_dec string_dec (Str.basename file_path) (map fst results));
    split; intros; try reflexivity; contradiction.
Qed.

(* ------------------------------------------------------------------ *)
(** ** Calls and pacing of a whole run *)

Module TraceFacts.
Import RunFacts ExtractFacts ConvertFacts MethodFacts.

Lemma quiet_ret {A} (a : A) : keeps_trace (ret a).
Proof. intros w; split; reflexivity. Qed.

Lemma quiet_lift {A} (o : outcome A) : keeps_trace (lift o).
Proof. intros w; split; reflexivity. Qed.

Lemma quiet_logger lv msg : keeps_trace (logger lv msg).
Proof. intros w; split; reflexivity. Qed.

Lemma quiet_to_csv df name : keeps_trace (to_csv df name).
Proof. intros w; split; reflexivity. Qed.

Lemma quiet_bind {A B} (m : M A) (f : A -> M B) :
  keeps_trace m -> (forall a, keeps_trace (f a)) -> keeps_trace (bind m f).
Proof.
  intros Hm Hf w; unfold bind.
  specialize (Hm w). destruct (m w) as [[a|e] w1]; simpl in *; [|assumption].
  destruct (Hf a w1) as [H1 H2]. destruct Hm as [H3 H4].
  split; congruence.
Qed.

Lemma quiet_for_each {A S} (body : S -> A -> M S) l :
  (forall s x, keeps_trace (body s x)) ->
  forall s, keeps_trace (for_each body l s).
Proof.
  intros Hb; induction l as [|x l IH]; simpl; intros s.
  - apply quiet_ret.
  - apply quiet_bind; auto.
Qed.

Ltac quiet :=
  repeat first
    [ apply quiet_ret | apply quiet_lift | apply quiet_logger
    | apply quiet_to_csv
    | apply quiet_for_each; intros
    | apply quiet_bind; intros
    | match goal with
      | |- keeps_trace (if ?b then _ else _) => destruct b
      | |- keeps_trace (match ?x with _ => _ end) => destruct x
      end ].

Lemma quiet_extract k json src : keeps_trace (extract k json src).
Proof.
  rewrite extract_unfold; unfold extract_statement, logger_warning. quiet.
Qed.

Lemma quiet_extract_all results : keeps_trace (extract_all results).
Proof.
  unfold extract_all; apply quiet_for_each; intros s [name data].
  unfold extract_document.
  apply quiet_bind; [apply (quiet_extract Income)|intros].
  apply quiet_bind; [apply (quiet_extract Balance)|intros].
  apply quiet_bind; [apply (quiet_extract CashFlow)|intros]. quiet.
Qed.

Lemma quiet_combine_all c : keeps_trace (combine_all c).
Proof.
  unfold combine_all, save_combined, logger_info. quiet.
Qed.

Lemma quiet_report results c : keeps_trace (report results c).
Proof. unfold report, logger_info. quiet. Qed.

Lemma convert_document_trace E results file_path w :
  let w' := snd (convert_document E results file_path w) in
  requests w' = requests w ++ reference_calls E api_key file_path /\
  slept w' = slept w ++ [2].
Proof.
  destruct (convert_document_run E results file_path w) as [r [w1 [Hr ->]]].
  destruct (url_frame E file_path api_key (announced w file_path))
    as [H1 [H2 _]].
  rewrite Hr in H1, H2; simpl in *. rewrite H1, H2. auto.
Qed.

Lemma convert_all_trace E files : forall acc w,
  let w' := snd (for_each (convert_document E) files acc w) in
  requests w' = requests w ++ flat_map (reference_calls E api_key) files /\
  slept w' = slept w ++ repeat 2 (length files).
Proof.
  induction files as [|f files IH]; simpl; intros acc w.
  - now rewrite !app_nil_r.
  - unfold bind.
    destruct (convert_document_trace E acc f w) as [H1 H2].
    destruct (total_convert_document E acc f w) as [acc' [w1 Hc]].
    rewrite Hc in *; simpl in *.
    destruct (IH acc' w1) as [H3 H4].
    rewrite H3, H4, H1, H2, <- !app_assoc. auto.
Qed.

Lemma reference_calls_get E key files r :
  In r (flat_map (reference_calls E key) files) -> is_post r = false.
Proof.
  rewrite in_flat_map; intros [f [_ H]]. unfold reference_calls in H.
  destruct (read_lines E f 20); [destruct H as [<-|[]]; reflexivity|destruct H].
Qed.

Lemma reference_calls_length E key files :
  length (flat_map (reference_calls E key) files) <= length files.
Proof.
  induction files as [|f files IH]; simpl; [lia|].
  rewrite length_app. unfold reference_calls at 1.
  destruct (read_lines E f 20); simpl; lia.
Qed.

End TraceFacts.

Import TraceFacts.

(** X5.  Whatever the service answers and whether or not the run ends
    with an exception, a run over [files] makes one GET by reference for
    each file it could read, in order, and no other call (never a POST of
    content, so at most one call per file), and it sleeps 2 once per
    file. *)
Theorem batch_calls_and_pacing (E : Env) (files : list string) (w : World) :
  let w' := snd (main_on E files w) in
  let calls := flat_map (reference_calls E api_key) files in
  requests w' = requests w ++ calls /\
  slept w' = slept w ++ repeat 2 (length files) /\
  length calls <= length files /\
  (forall r, In r calls -> is_post r = false).
Proof.
  intros w' calls; subst w' calls.
  split; [|split; [|split]].
  3: apply reference_calls_length.
  3: apply reference_calls_get.
  all: unfold main_on, bind;
    destruct (convert_all_trace E files [] w) as [H1 H2];
    unfold convert_all;
    destruct (for_each (convert_document E) files [] w) as [[results|e] w1];
    simpl in *; try assumption;
    pose proof (quiet_bind (extract_all results)
                  (fun collected =>
                     bind (combine_all collected)
                          (fun _ => report results collected))
                  (quiet_extract_all results)
                  (fun c => quiet_bind _ _ (quiet_combine_all c)
                              (fun _ => quiet_report results c)) w1) as [H3 H4];
    unfold bind in H3, H4; congruence.
Qed.

Module ResultsFacts.
Import RunFacts ConvertFacts.

Lemma dict_set_length {V} k (v : V) d : length (dict_set k v d) <= S (length d).
Proof.
  induction d as [|[k' v'] d IH]; simpl; [lia|].
  destruct (string_dec k k'); simpl; lia.
Qed.

Lemma answered_more E f files name data :
  answered E files name data -> answered E (f :: files) name data.
Proof.
  intros [Hne [p [n [resp [Hin H]]]]]; split; [assumption|].
  exists p, n, resp; split; [now right|assumption].
Qed.

Lemma convert_loop_sound E files : forall acc w results w1,
  for_each (convert_document E) files acc w = (Ret results, w1) ->
  NoDup (map fst acc) ->
  NoDup (map fst results) /\
  (forall name data,
     In (name, data) results ->
     In (name, data) acc \/ answered E files name data) /\
  length results <= length acc + length files.
Proof.
  induction files as [|f files IH]; simpl; intros acc w results w1 H Hnd.
  - inversion H; subst. repeat split; auto; lia.
  - unfold bind in H.
    destruct (convert_document_run E acc f w) as [r [w2 [Hr Hc]]].
    rewrite Hc in H.
    destruct r as [[|x d]|].
    + destruct (IH _ _ _ _ H Hnd) as [H1 [H2 H3]].
      repeat split; [assumption| |lia].
      intros name data Hin. destruct (H2 _ _ Hin); [now left|right].
      now apply answered_more.
    + apply url_success_inv in Hr.
      destruct Hr as [lines [resp [_ [Hh [Hs Hj]]]]].
      destruct (IH _ _ _ _ H (dict_set_NoDup _ _ _ Hnd)) as [H1 [H2 H3]].
      match type of H3 with
      | _ <= ?a + _ => assert (Hlen : a <= S (length acc))
                         by apply dict_set_length
      end.
      repeat split; [assumption| |lia].
      intros name data Hin. destruct (H2 _ _ Hin) as [Ha|Ha].
      * apply dict_set_In in Ha. destruct Ha as [[-> ->]|Ha]; [right|now left].
        split; [discriminate|].
        eexists f, _, resp; repeat split; eauto. now left.
      * right; now apply answered_more.
    + destruct (IH _ _ _ _ H Hnd) as [H1 [H2 H3]].
      repeat split; [assumption| |lia].
      intros name data Hin. destruct (H2 _ _ Hin); [now left|right].
      now apply answered_more.
Qed.

End ResultsFacts.

Import ResultsFacts.

(** X6.  The documents the conversion phase hands on.  Their names are
    unique; each is non-empty and is the parsed body of a 200 answer to
    the GET by reference for a file of the list whose base name is its
    name; and there are at most as many as files. *)
Theorem converted_results_are_sound (E : Env) (files : list string)
        (w : World) results w1 :
  convert_all E files w = (Ret results, w1) ->
  NoDup (map fst results) /\
  (forall name data, In (name, data) results -> answered E files name data) /\
  length results <= length files.
Proof.
  unfold convert_all; intros H.
  destruct (convert_loop_sound E files [] w results w1 H (NoDup_nil _))
    as [H1 [H2 H3]].
  split; [assumption|split; [|exact H3]].
  intros name data Hin. destruct (H2 _ _ Hin) as [[]|Ha]; exact Ha.
Qed.

(* ------------------------------------------------------------------ *)
(** ** The extraction phase, document by document *)

Module PhaseFacts.
Import ExtractFacts BatchFacts.

Arguments extract_document : simpl never.

Lemma warned_nil w : warned w [] = w.
Proof. destruct w; unfold warned; simpl. now rewrite app_nil_r. Qed.

Lemma warned_app w a b : warned (warned w a) b = warned w (a ++ b).
Proof. unfold warned; simpl. now rewrite app_assoc. Qed.

(** What one extractor does to a document. *)
Lemma extract_cases k data name w :
  (complete_for k data = true ->
   exists r added,
     extract k data name w = (Ret r, warned w added) /\
     Forall (fun e => fst e = WARNING) added /\
     length added + length (extracted k (name, data) w) = 1 /\
     length (extracted k (name, data) w) =
     (if dict_contains (section_key k) data then 1 else 0)) /\
  (complete_for k data = false ->
   exists key, extract k data name w = (Raise (KeyError key), w)).
Proof.
  unfold complete_for, dict_contains, extracted; simpl.
  destruct (dict_get (section_key k) data) as [sec|] eqn:E.
  - split.
    + intros Hok. rewrite (extract_complete _ _ _ _ _ E Hok); simpl.
      eexists; exists []; rewrite warned_nil. repeat split; constructor.
    + intros Hbad. rewrite (extract_present _ _ _ _ _ E).
      destruct (populate (column_key k) sec DF.empty) as [df|e] eqn:Ep.
      * apply populate_complete in Ep; congruence.
      * apply populate_raise in Ep; destruct Ep as [-> | ->]; simpl; eauto.
  - split; [intros _|discriminate].
    destruct (extract_absent k data name w E) as [msg ->]; simpl.
    exists None, [(WARNING, msg)]. repeat split; repeat constructor.
Qed.

Lemma complete_split data :
  complete data = true <->
  complete_for Income data = true /\ complete_for Balance data = true /\
  complete_for CashFlow data = true.
Proof. unfold complete; rewrite !andb_true_iff; tauto. Qed.

Lemma extract_document_complete acc name data w :
  complete data = true ->
  exists acc' added,
    extract_document acc (name, data) w = (Ret acc', warned w added) /\
    Forall (fun e => fst e = WARNING) added /\
    length added +
    (if dict_contains (section_key Income) data then 1 else 0) +
    (if dict_contains (section_key Balance) data then 1 else 0) +
    (if dict_contains (section_key CashFlow) data then 1 else 0) = 3.
Proof.
  rewrite complete_split; intros [Hi [Hb Hc]].
  unfold extract_document, bind, ret.
  destruct (proj1 (extract_cases Income data name w) Hi)
    as [ri [ai [Ei [Fi [Li Ci]]]]].
  change extract_income_statement with (extract Income); rewrite Ei.
  destruct (proj1 (extract_cases Balance data name (warned w ai)) Hb)
    as [rb [ab [Eb [Fb [Lb Cb]]]]].
  change extract_balance_sheet with (extract Balance); rewrite Eb.
  destruct (proj1 (extract_cases CashFlow data name
                     (warned (warned w ai) ab)) Hc)
    as [rc [ac [Ec [Fc [Lc Cc]]]]].
  change extract_cash_flow with (extract CashFlow); rewrite Ec.
  eexists; exists (ai ++ ab ++ ac); rewrite !warned_app.
  split; [reflexivity|split].
  - repeat (apply Forall_app; split); assumption.
  - rewrite !length_app. rewrite <- Ci, <- Cb, <- Cc. lia.
Qed.

Lemma extract_document_incomplete acc name data w :
  complete data = false ->
  exists key w', extract_document acc (name, data) w = (Raise (KeyError key), w').
Proof.
  intros Hbad. unfold extract_document, bind, ret.
  change extract_income_statement with (extract Income).
  change extract_balance_sheet with (extract Balance).
  change extract_cash_flow with (extract CashFlow).
  destruct (complete_for Income data) eqn:Hi.
  - destruct (proj1 (extract_cases Income data name w) Hi)
      as [ri [ai [-> _]]].
    destruct (complete_for Balance data) eqn:Hb.
    + destruct (proj1 (extract_cases Balance data name (warned w ai)) Hb)
        as [rb [ab [-> _]]].
      destruct (complete_for CashFlow data) eqn:Hc.
      * unfold complete in Hbad; rewrite Hi, Hb, Hc in Hbad; discriminate.
      * destruct (proj2 (extract_cases CashFlow data name
                           (warned (warned w ai) ab)) Hc) as [key ->]; eauto.
    + destruct (proj2 (extract_cases Balance data name (warned w ai)) Hb)
        as [key ->]; eauto.
  - destruct (proj2 (extract_cases Income data name w) Hi) as [key ->]; eauto.
Qed.

Lemma with_kind_cons k name data results :
  with_kind k ((name, data) :: results) =
  (if dict_contains (section_key k) data then 1 else 0) + with_kind k results.
Proof.
  unfold with_kind; simpl.
  destruct (dict_contains (section_key k) data); reflexivity.
Qed.

Lemma extract_loop_complete results : forall acc w,
  forallb (fun doc : string * ConversionResult => complete (snd doc)) results
  = true ->
  exists c added,
    for_each extract_document results acc w = (Ret c, warned w added) /\
    Forall (fun e => fst e = WARNING) added /\
    length added + with_kind Income results + with_kind Balance results +
    with_kind CashFlow results = 3 * length results.
Proof.
  induction results as [|[name data] results IH]; intros acc w H.
  - exists acc, []; rewrite warned_nil. repeat split; constructor.
  - simpl in H. apply andb_prop in H; destruct H as [Hd Hrest].
    destruct (extract_document_complete acc name data w Hd)
      as [acc' [a1 [E1 [F1 L1]]]].
    cbn [for_each]. unfold bind; rewrite E1.
    destruct (IH acc' (warned w a1) Hrest) as [c [a2 [E2 [F2 L2]]]].
    exists c, (a1 ++ a2); rewrite E2, warned_app.
    split; [reflexivity|split; [apply Forall_app; auto|]].
    rewrite length_app, !with_kind_cons. cbn [length]. lia.
Qed.

Lemma extract_loop_incomplete results : forall acc w,
  forallb (fun doc : string * ConversionResult => complete (snd doc)) results
  = false ->
  exists key w',
    for_each extract_document results acc w = (Raise (KeyError key), w').
Proof.
  induction results as [|[name data] results IH]; simpl; intros acc w H;
    [discriminate|].
  unfold bind. destruct (complete data) eqn:Hd.
  - destruct (extract_document_complete acc name data w Hd)
      as [acc' [a1 [-> _]]].
    simpl in H. apply IH; assumption.
  - destruct (extract_document_incomplete acc name data w Hd)
      as [key [w' ->]]; eauto.
Qed.

Lemma with_kind_tables results w c w' k :
  extract_all results w = (Ret c, w') ->
  length (tables_of k c) = with_kind k results.
Proof.
  intros H.
  assert (Hall : forallb (fun doc : string * ConversionResult =>
                            complete (snd doc)) results = true).
  { destruct (forallb (fun doc : string * ConversionResult =>
                         complete (snd doc)) results) eqn:E; [reflexivity|].
    destruct (extract_loop_incomplete results (mkCollected [] [] []) w E)
      as [key [w2 H2]].
    unfold extract_all in H; rewrite H2 in H; discriminate. }
  rewrite (extract_all_tables _ _ _ _ H k w).
  clear H. induction results as [|[name data] results IH];
    [reflexivity|].
  simpl in Hall. apply andb_prop in Hall; destruct Hall as [Hd Hrest].
  cbn [flat_map]. rewrite length_app, (IH Hrest), with_kind_cons.
  apply complete_split in Hd.
  assert (Hk : complete_for k data = true) by (destruct k; tauto).
  destruct (proj1 (extract_cases k data name w) Hk) as [r [a [_ [_ [_ Hc]]]]].
  now rewrite Hc.
Qed.

End PhaseFacts.

Import PhaseFacts.

(** X7.  Whether a run ends normally is decided by the converted
    documents alone.  If in each of them every observation of every
    statement section present has its period (or date) field and its
    [value] field, the run returns; otherwise it ends with a [KeyError]
    raised by an extractor, before any file is written. *)
Theorem batch_ends_normally_iff_complete (E : Env) (files : list string)
        (w : World) results w1 :
  convert_all E files w = (Ret results, w1) ->
  (forallb (fun doc : string * ConversionResult => complete (snd doc)) results
   = true ->
   exists w', main_on E files w = (Ret tt, w')) /\
  (forallb (fun doc : string * ConversionResult => complete (snd doc)) results
   = false ->
   exists key w',
     main_on E files w = (Raise (KeyError key), w') /\
     written w' = written w).
Proof.
  intros Hc; split; intros Hall.
  - destruct (extract_loop_complete results (mkCollected [] [] []) w1 Hall)
      as [c [added [He _]]].
    destruct (main_on_run E files w results w1 c _ Hc He) as [w3 [Hm _]].
    eauto.
  - destruct (extract_loop_incomplete results (mkCollected [] [] []) w1 Hall)
      as [key [w2 He]].
    destruct (main_on_raise E files w results w1 _ w2 Hc He) as [Hm Hw].
    eauto.
Qed.

(** X8.  When the extraction phase completes, the number of tables it
    collected for a kind is the number of converted documents that contain
    the section of that kind; the only thing it changed in the world is
    the log, to which it added WARNING entries only, one for each
    (document, kind) pair without a section. *)
Theorem extraction_counts_and_warnings results w c w' :
  extract_all results w = (Ret c, w') ->
  (forall k, length (tables_of k c) = with_kind k results) /\
  exists added,
    w' = warned w added /\
    Forall (fun e => fst e = WARNING) added /\
    length added + with_kind Income results + with_kind Balance results +
    with_kind CashFlow results = 3 * length results.
Proof.
  intros H; split; [intros k; eapply with_kind_tables; eauto|].
  destruct (forallb (fun doc : string * ConversionResult =>
                       complete (snd doc)) results) eqn:E.
  - destruct (extract_loop_complete results (mkCollected [] [] []) w E)
      as [c2 [added [He [Hf Hl]]]].
    unfold extract_all in H; rewrite He in H; inversion H; subst.
    exists added; auto.
  - destruct (extract_loop_incomplete results (mkCollected [] [] []) w E)
      as [key [w2 H2]].
    unfold extract_all in H; rewrite H2 in H; discriminate.
Qed.

(** X9.  A run that ends normally ends its log with the four summary
    entries, and the numbers in them are right: the number of converted
    documents, and for each kind the number of converted documents that
    contain its section. *)
Theorem summary_counts_are_accurate (E : Env) (files : list string)
        (w : World) results w1 c w2 :
  convert_all E files w = (Ret results, w1) ->
  extract_all results w1 = (Ret c, w2) ->
  exists w' before,
    main_on E files w = (Ret tt, w') /\
    log w' = before ++ summary results.
Proof.
  intros Hc He. unfold main_on, bind; rewrite Hc, He.
  destruct (combine_all_run c w2) as [w3 [-> _]].
  unfold report, bind, logger_info, logger; simpl.
  eexists; exists (log w3); split; [reflexivity|].
  simpl. unfold summary.
  rewrite <- (with_kind_tables _ _ _ _ Income He).
  rewrite <- (with_kind_tables _ _ _ _ Balance He).
  rewrite <- (with_kind_tables _ _ _ _ CashFlow He).
  rewrite <- !app_assoc; reflexivity.
Qed.

(* ------------------------------------------------------------------ *)
(** ** Where the cells of a table come from *)

Module ProvenanceFacts.
Import DF DFFacts PopulateFacts CellFacts OrderFacts ExtractFacts.

Arguments place : simpl never.

Lemma index_of_app_last c' c l :
  index_of c' (l ++ [c]) =
  match index_of c' l with
  | Some j => Some j
  | None => if scalar_eq_dec c' c then Some (length l) else None
  end.
Proof.
  induction l as [|a l IH]; simpl.
  - destruct (scalar_eq_dec c' c); reflexivity.
  - destruct (scalar_eq_dec c' a); [reflexivity|].
    rewrite IH. destruct (index_of c' l); simpl; [reflexivity|].
    destruct (scalar_eq_dec c' c); reflexivity.
Qed.

Lemma find_row_exists r rs :
  In r (map fst rs) -> exists cs, find_row r rs = Some cs.
Proof.
  intros H; apply has_row_In in H. rewrite has_row_find in H.
  destruct (find_row r rs); [eauto|discriminate].
Qed.

Lemma row_length df r cs :
  rectangular df -> find_row r (rows df) = Some cs ->
  length cs = length (columns df).
Proof.
  intros Hrect H; apply find_row_In in H.
  unfold rectangular in Hrect; rewrite Forall_forall in Hrect.
  exact (Hrect _ H).
Qed.

Lemma loc_get_total df r c :
  rectangular df -> In r (index df) -> In c (columns df) ->
  exists x, loc_get df r c = Some x.
Proof.
  intros Hrect Hr Hc; unfold loc_get, cell_of.
  destruct (find_row_exists _ _ Hr) as [cs Hcs]; rewrite Hcs.
  apply index_of_In in Hc; destruct Hc as [i Hi]; rewrite Hi.
  pose proof (index_of_lt _ _ _ Hi). pose proof (row_length _ _ _ Hrect Hcs).
  destruct (nth_error cs i) eqn:E; [eauto|].
  apply nth_error_None in E; lia.
Qed.

(** A cell read after [df[c] = v] is [v] under [c] or the cell that was
    there. *)
Lemma setitem_cell c v df r c' x :
  rectangular df ->
  loc_get (setitem c v df) r c' = Some x ->
  (c' = c /\ x = v) \/ loc_get df r c' = Some x.
Proof.
  unfold loc_get, setitem, cell_of; intros Hrect H.
  destruct (index_of c (columns df)) as [i|] eqn:Ei; simpl in H.
  - rewrite (find_row_map r (fun _ cs => set_nth i v cs)) in H.
    destruct (find_row r (rows df)) as [cs|] eqn:Er; simpl in H; [|discriminate].
    destruct (index_of c' (columns df)) as [j|] eqn:Ej; [|discriminate].
    destruct (Nat.eq_dec i j) as [->|Hij].
    + left; split; [eapply index_of_inj; eauto|].
      rewrite set_nth_same in H; [congruence|].
      rewrite (row_length _ _ _ Hrect Er). eapply index_of_lt; eauto.
    + right. now rewrite set_nth_other in H.
  - rewrite (find_row_map r (fun _ cs => cs ++ [v])) in H.
    destruct (find_row r (rows df)) as [cs|] eqn:Er; simpl in H; [|discriminate].
    rewrite index_of_app_last in H.
    pose proof (row_length _ _ _ Hrect Er) as Hlen.
    destruct (index_of c' (columns df)) as [j|] eqn:Ej.
    + right. rewrite nth_error_app1 in H; [assumption|].
      rewrite Hlen; eapply index_of_lt; eauto.
    + destruct (scalar_eq_dec c' c) as [->|]; [|discriminate].
      left; split; [reflexivity|].
      rewrite nth_error_app2, Hlen, Nat.sub_diag in H by lia.
      simpl in H; congruence.
Qed.

(** A cell read after [df.loc[item, c] = v] is [v] at (item, c), NaN on the
    row just added, or the cell that was there. *)
Lemma loc_set_cell item c v df r c' x :
  rectangular df ->
  loc_get (loc_set item c v df) r c' = Some x ->
  (r = item /\ c' = c /\ x = v) \/ x = CNaN \/ loc_get df r c' = Some x.
Proof.
  unfold loc_get, loc_set, cell_of; intros Hrect H.
  destruct (index_of c (columns df)) as [i|] eqn:Ei; [|auto].
  pose proof (index_of_lt _ _ _ Ei) as Hi.
  rewrite has_row_find in H.
  destruct (find_row item (rows df)) as [ics|] eqn:Eitem; simpl in H.
  - rewrite find_row_loc_set in H.
    destruct (find_row r (rows df)) as [cs|] eqn:Er; simpl in H; [|discriminate].
    destruct (index_of c' (columns df)) as [j|] eqn:Ej; [|discriminate].
    destruct (string_dec item r) as [->|Hne]; [|auto].
    destruct (Nat.eq_dec i j) as [->|Hij].
    + left. split; [reflexivity|split; [eapply index_of_inj; eauto|]].
      rewrite set_nth_same in H; [congruence|].
      now rewrite (row_length _ _ _ Hrect Er).
    + right; right. now rewrite set_nth_other in H.
  - rewrite find_row_app in H.
    destruct (find_row r (rows df)) as [cs|] eqn:Er; [auto|].
    simpl in H. destruct (string_dec r item) as [->|]; [|discriminate].
    destruct (index_of c' (columns df)) as [j|] eqn:Ej; [|discriminate].
    destruct (Nat.eq_dec i j) as [->|Hij].
    + left. split; [reflexivity|split; [eapply index_of_inj; eauto|]].
      rewrite set_nth_same in H; [congruence|now rewrite repeat_length].
    + right; left. rewrite set_nth_other in H by assumption.
      apply nth_error_In, repeat_spec in H. congruence.
Qed.

Lemma place_cell df item p v r c x :
  rectangular df ->
  loc_get (place df (item, p, v)) r c = Some x ->
  (r = item /\ c = p /\ x = CVal v) \/ is_empty_cell x = true \/
  loc_get df r c = Some x.
Proof.
  unfold place; intros Hrect H.
  apply loc_set_cell in H.
  - destruct H as [H|[->|H]]; [now left|right; now left|].
    destruct (has_column p df); [auto|].
    apply setitem_cell in H; [|assumption].
    destruct H as [[_ ->]|H]; [right; now left|auto].
  - destruct (has_column p df); [assumption|now apply setitem_rectangular].
Qed.

Lemma fold_place_cells es : forall df r c x,
  rectangular df ->
  loc_get (fold_left place es df) r c = Some x ->
  is_empty_cell x = true \/ loc_get df r c = Some x \/
  exists v, x = CVal v /\ In (r, c, v) es.
Proof.
  induction es as [|[[item p] v] es IH]; simpl; intros df r c x Hrect H;
    [auto|].
  apply IH in H; [|now apply place_rectangular].
  destruct H as [H|[H|[u [-> Hin]]]]; [now left| |right; right; eauto].
  apply place_cell in H; [|assumption].
  destruct H as [[-> [-> ->]]|[H|H]]; [|now left|auto].
  right; right; exists v; split; [reflexivity|now left].
Qed.

Lemma entries_report key sec label p v :
  In (label, p, v) (entries key sec) -> reports key sec label p v.
Proof.
  unfold entries; rewrite in_flat_map; intros [[item vs] [Hiv H]].
  rewrite in_flat_map in H; destruct H as [o [Ho He]]; simpl in *.
  unfold entry_of in He.
  destruct (dict_get key o) as [q|] eqn:Eq; [|destruct He].
  destruct (dict_get "value" o) as [u|] eqn:Eu; [|destruct He].
  destruct He as [He|[]]; inversion He; subst.
  exists vs, o; auto.
Qed.

(** What an extractor returns is the table of its complete section. *)
Lemma extract_returns k json src w t :
  fst (extract k json src w) = Ret (Some t) ->
  exists sec,
    dict_get (section_key k) json = Some sec /\
    section_ok (column_key k) sec = true /\
    t = table_of (column_key k) sec src.
Proof.
  intros H.
  destruct (dict_get (section_key k) json) as [sec|] eqn:E.
  - exists sec; split; [reflexivity|].
    rewrite (extract_present _ _ _ _ _ E) in H; simpl in H.
    destruct (populate (column_key k) sec empty) as [df|] eqn:Ep;
      [|discriminate].
    pose proof (populate_complete _ _ _ _ Ep) as Hok.
    split; [assumption|].
    rewrite populate_ok in Ep by assumption.
    inversion Ep; subst. simpl in H. now inversion H.
  - destruct (extract_absent k json src w E) as [m Hm].
    rewrite Hm in H; discriminate.
Qed.

Lemma table_of_rectangular key sec src : rectangular (table_of key sec src).
Proof.
  unfold table_of. apply setitem_rectangular, fold_place_rectangular.
  apply rectangular_empty.
Qed.

End ProvenanceFacts.

Import ProvenanceFacts.

(** X10.  Every table an extractor returns is well formed: each row has
    exactly one cell per column, no column label and no row label occurs
    twice, and the source column is among the columns. *)
Theorem extracted_table_is_well_formed (k : kind) json src w t :
  fst (extract k json src w) = Ret (Some t) ->
  rectangular t /\ NoDup (columns t) /\ NoDup (DF.index t) /\
  In source_column (columns t).
Proof.
  intros H. destruct (extract_returns _ _ _ _ _ H) as [sec [_ [_ ->]]].
  unfold table_of.
  set (df := fold_left place (entries (column_key k) sec) DF.empty).
  assert (Hrect : rectangular df)
    by apply PopulateFacts.fold_place_rectangular, DFFacts.rectangular_empty.
  assert (Hcols : NoDup (columns df)).
  { unfold df; rewrite PopulateFacts.fold_place_columns.
    apply OrderFacts.union_NoDup; constructor. }
  split; [now apply DFFacts.setitem_rectangular|split; [|split]].
  - rewrite DFFacts.setitem_columns.
    destruct (in_dec scalar_eq_dec source_column (columns df)) as [Hi|Hi];
      [assumption|].
    apply NoDup_app; [assumption|repeat constructor; simpl; tauto|].
    intros a Ha [<-|[]]; contradiction.
  - rewrite DFFacts.setitem_index. unfold df.
    rewrite PopulateFacts.fold_place_index.
    apply OrderFacts.union_NoDup; constructor.
  - rewrite DFFacts.setitem_columns.
    destruct (in_dec scalar_eq_dec source_column (columns df));
      [assumption|apply in_or_app; right; now left].
Qed.

(** X11.  In a table an extractor returns, every pair of a row label and
    a column other than the source column has a cell.  The cell holds a
    value only if an observation of that label reports that value for that
    period; when no observation of the label has the period, the cell is
    empty (None or NaN). *)
Theorem cells_are_reported_or_empty (k : kind) json src w t sec label p :
  fst (extract k json src w) = Ret (Some t) ->
  dict_get (section_key k) json = Some sec ->
  In label (DF.index t) -> In p (columns t) -> p <> source_column ->
  exists x,
    DF.loc_get t label p = Some x /\
    (forall v, x = CVal v -> reports (column_key k) sec label p v) /\
    ((forall v, ~ reports (column_key k) sec label p v) ->
     is_empty_cell x = true).
Proof.
  intros H Hsec Hl Hp Hne.
  destruct (extract_returns _ _ _ _ _ H) as [sec' [Hsec' [_ Ht]]].
  rewrite Hsec in Hsec'; inversion Hsec'; subst sec'; clear Hsec'.
  assert (Hrect : rectangular t) by (rewrite Ht; apply table_of_rectangular).
  destruct (loc_get_total t label p Hrect Hl Hp) as [x Hx].
  assert (Hval : forall v, x = CVal v -> reports (column_key k) sec label p v).
  { intros v ->. rewrite Ht in Hx. unfold table_of in Hx.
    apply setitem_cell in Hx;
      [|apply PopulateFacts.fold_place_rectangular, DFFacts.rectangular_empty].
    destruct Hx as [[Hc _]|Hx]; [contradiction|].
    apply fold_place_cells in Hx; [|apply DFFacts.rectangular_empty].
    destruct Hx as [Hx|[Hx|[u [Hu Hin]]]]; [discriminate|discriminate|].
    inversion Hu; subst u. now apply entries_report. }
  exists x; split; [assumption|split; [assumption|]].
  intros Hnone. destruct x as [| |v]; try reflexivity.
  exfalso; exact (Hnone v (Hval v eq_refl)).
Qed.

(* ------------------------------------------------------------------ *)
(** ** Concatenation of tables with different columns *)

Module FillFacts.
Import DF DFFacts CellFacts OrderFacts ConcatFacts BatchFacts.

Lemma concat_rows_rectangular dfs : rectangular (concat_rows dfs).
Proof.
  unfold rectangular, concat_rows; simpl.
  generalize (distinct scalar_eq_dec (flat_map columns dfs)); intros cols.
  apply Forall_forall; intros r Hr.
  apply in_flat_map in Hr; destruct Hr as [t [_ Hr]].
  apply in_map_iff in Hr; destruct Hr as [r0 [<- _]]; simpl.
  unfold realign; now rewrite length_map.
Qed.

Lemma column_present t c :
  rectangular t -> In c (columns t) ->
  map (fun r => Some (match cell_of (columns t) (snd r) c with
                      | Some x => x
                      | None => CNaN
                      end)) (rows t) = column t c.
Proof.
  unfold rectangular, column; intros Hrect Hc.
  apply index_of_In in Hc; destruct Hc as [i Hi].
  pose proof (index_of_lt _ _ _ Hi) as Hlt.
  apply map_ext_in; intros r Hr.
  rewrite Forall_forall in Hrect; specialize (Hrect _ Hr).
  unfold cell_of; rewrite Hi.
  destruct (nth_error (snd r) i) eqn:E; [reflexivity|].
  apply nth_error_None in E; lia.
Qed.

Lemma column_absent t c :
  ~ In c (columns t) ->
  map (fun r => Some (match cell_of (columns t) (snd r) c with
                      | Some x => x
                      | None => CNaN
                      end)) (rows t) = repeat (Some CNaN) (length (rows t)).
Proof.
  intros Hc; apply map_constant; intros r _.
  unfold cell_of. apply index_of_None in Hc. now rewrite Hc.
Qed.

End FillFacts.

Import FillFacts.

(** X12.  The concatenation of well-formed tables is well formed and its
    columns are those of the tables, each once.  Read down any of its
    columns, table by table: a table that has the column contributes its
    own cells unchanged, a table that lacks it contributes NaN for each of
    its rows. *)
Theorem concat_fills_missing_columns (dfs : list DataFrame) combined :
  DF.concat dfs = Ret combined ->
  Forall rectangular dfs ->
  rectangular combined /\
  NoDup (columns combined) /\
  (forall c, In c (columns combined) <->
             exists t, In t dfs /\ In c (columns t)) /\
  (forall c,
     In c (columns combined) ->
     DF.column combined c =
     flat_map (fun t => if in_dec scalar_eq_dec c (columns t)
                        then DF.column t c
                        else repeat (Some CNaN) (length (rows t))) dfs).
Proof.
  intros Hc Hrect.
  assert (combined = DF.concat_rows dfs) as ->.
  { destruct dfs; simpl in Hc; [discriminate|now inversion Hc]. }
  split; [apply concat_rows_rectangular|split; [|split]].
  - simpl. apply OrderFacts.union_NoDup; constructor.
  - intros c; simpl. unfold DF.distinct.
    rewrite OrderFacts.union_In, in_flat_map; simpl. tauto.
  - intros c Hin. rewrite ConcatFacts.concat_rows_column by exact Hin.
    clear Hin Hc. induction Hrect as [|t dfs Ht _ IH]; simpl; [reflexivity|].
    rewrite IH; f_equal.
    destruct (in_dec scalar_eq_dec c (columns t)) as [Hi|Hi].
    + now apply column_present.
    + now apply column_absent.
Qed.

(** X13.  The files of a run that ends normally are determined by the
    converted documents: for each kind in the order income statement,
    balance sheet, cash flow, if some converted document contains the
    section of the kind, one file with the name of the kind whose content
    is the concatenation, in document order, of the tables extracted from
    the documents that contain it; no other file is written. *)
Theorem combined_files_of_a_run (E : Env) (files : list string) (w : World)
        results w1 c w2 :
  convert_all E files w = (Ret results, w1) ->
  extract_all results w1 = (Ret c, w2) ->
  written (snd (main_on E files w)) =
  written w ++
  flat_map (fun k =>
              match with_kind k results with
              | O => []
              | S _ =>
                  [(csv_name k,
                    DF.concat_rows
                      (flat_map (fun doc => extracted k doc w) results))]
              end)
           [Income; Balance; CashFlow].
Proof.
  intros Hc He.
  destruct (main_on_run E files w results w1 c w2 Hc He) as [w3 [-> Hw]].
  simpl fst; simpl snd. rewrite Hw; f_equal.
  unfold outputs, output_of. cbn [flat_map]. rewrite app_nil_r.
  rewrite <- !(PhaseFacts.with_kind_tables _ _ _ _ _ He).
  rewrite <- !(extract_all_tables _ _ _ _ He _ w).
  destruct (tables_of Income c), (tables_of Balance c), (tables_of CashFlow c);
    reflexivity.
Qed.

(** X14.  When the service never answers with status 200, whatever else
    happens, the run converts no document, ends normally, writes no file
    and reports zero everywhere in its summary. *)
Theorem nothing_converted_nothing_written (E : Env) (files : list string)
        (w : World) :
  (forall n r resp, http E n r = Ret resp -> status_code resp <> 200%Z) ->
  exists w' before,
    main_on E files w = (Ret tt, w') /\
    fst (convert_all E files w) = Ret [] /\
    written w' = written w /\
    log w' = before ++ summary [].
Proof.
  intros Hnever.
  destruct (RunFacts.total_convert_all E files w) as [results [w1 Hc]].
  assert (results = []) as ->.
  { destruct results as [|[name data] results]; [reflexivity|].
    unfold convert_all in Hc.
    destruct (convert_loop_sound E files [] w _ w1 Hc (NoDup_nil _))
      as [_ [H _]].
    destruct (H name data (or_introl eq_refl)) as [[]|[_ Ha]].
    destruct Ha as [p [n [resp [_ [_ [Hh [Hs _]]]]]]].
    exfalso; exact (Hnever _ _ _ Hh Hs). }
  pose proof (RunFacts.keeps_convert_all E files w) as K.
  unfold main_on, bind; rewrite Hc in *; simpl in *.
  eexists; exists (log w1).
  split; [reflexivity|split; [reflexivity|split; [exact K|]]].
  simpl. unfold summary, with_kind; simpl.
  rewrite <- !app_assoc; reflexivity.
Qed.

(* ------------------------------------------------------------------ *)
(** ** The further statements at concrete inputs *)

Lemma accession_number_of_file_name_witness :
  extract_accession_number_from_filename "aapl_10k_1.html" = Some "1".
Proof.
  apply (proj2 (proj2 (accession_number_of_file_name "aapl_10k_1.html"))
           "aapl" "10k" "1" ".html");
    try reflexivity.
  right; exists "html"; now left.
Defined.

Lemma url_method_succeeds_iff_witness :
  fst (process_html_file_with_url (Demo.service 200 "{}" Demo.doc_b)
         Demo.file api_key Demo.w0) = Ret (Some Demo.doc_b).
Proof.
  apply (proj2 (proj1 (url_method_succeeds_iff
                         (Demo.service 200 "{}" Demo.doc_b)
                         Demo.file api_key Demo.w0 Demo.doc_b))).
  exists "<html>", (mkResponse 200 "{}"); repeat split.
Defined.

Lemma content_method_contract_witness :
  requests (snd (process_html_file_chunked (Demo.service 200 "{}" Demo.doc_b)
                   Demo.file api_key Demo.w0)) =
  [content_call (Demo.service 200 "{}" Demo.doc_b) api_key Demo.page].
Proof.
  apply (proj1 (proj2 (proj2 (content_method_contract
                                (Demo.service 200 "{}" Demo.doc_b)
                                Demo.file api_key Demo.w0))
                      Demo.page eq_refl)).
Defined.

Lemma successful_conversion_is_recorded_witness :
  let E := Demo.service 200 "{}" Demo.doc_b in
  exists results',
    fst (convert_document E [] Demo.file Demo.w0) = Ret results' /\
    dict_get Demo.file results' = Some Demo.doc_b.
Proof.
  intros E.
  destruct (successful_conversion_is_recorded E [] Demo.file Demo.w0
              Demo.doc_b
              (snd (process_html_file_with_url E Demo.file api_key
                      (announced Demo.w0 Demo.file))))
    as [results' [Hrun [Hget _]]]; [reflexivity|discriminate|].
  exists results'; split; [now rewrite Hrun|exact Hget].
Defined.

Lemma batch_calls_and_pacing_witness :
  let E := Demo.service 500 "Internal Server Error" Demo.doc_a in
  slept (snd (main_on E [Demo.file; "b.html"] Demo.w0)) = [2; 2] /\
  length (requests (snd (main_on E [Demo.file; "b.html"] Demo.w0))) = 2.
Proof.
  intros E.
  destruct (batch_calls_and_pacing E [Demo.file; "b.html"] Demo.w0)
    as [Hr [Hs _]].
  split; [exact Hs|now rewrite Hr].
Defined.

Lemma converted_results_are_sound_witness :
  let E := Demo.service 200 "{}" Demo.doc_b in
  NoDup (map fst [(Demo.file, Demo.doc_b)]) /\
  length [(Demo.file, Demo.doc_b)] <= 2.
Proof.
  intros E.
  destruct (converted_results_are_sound E [Demo.file; "x/aapl_10k_1.html"]
              Demo.w0 [(Demo.file, Demo.doc_b)]
              (snd (convert_all E [Demo.file; "x/aapl_10k_1.html"] Demo.w0))
              eq_refl)
    as [Hnd [_ Hlen]].
  split; [exact Hnd|exact Hlen].
Defined.

Lemma batch_ends_normally_iff_complete_witness :
  exists key w',
    main_on (Demo.service 200 "{}" Demo.doc_undated) [Demo.file] Demo.w0 =
    (Raise (KeyError key), w') /\
    written w' = written Demo.w0.
Proof.
  apply (proj2 (batch_ends_normally_iff_complete
                  (Demo.service 200 "{}" Demo.doc_undated) [Demo.file] Demo.w0
                  [(Demo.file, Demo.doc_undated)]
                  (snd (convert_all (Demo.service 200 "{}" Demo.doc_undated)
                          [Demo.file] Demo.w0))
                  eq_refl));
    reflexivity.
Defined.

Lemma extraction_counts_and_warnings_witness :
  length (tables_of Income
            (Demo.value_of (mkCollected [] [] [])
               (extract_all [("a.html", Demo.doc_a); ("b.html", Demo.doc_b)]
                  Demo.w0))) = 2 /\
  length (tables_of Balance
            (Demo.value_of (mkCollected [] [] [])
               (extract_all [("a.html", Demo.doc_a); ("b.html", Demo.doc_b)]
                  Demo.w0))) = 1.
Proof.
  destruct (extraction_counts_and_warnings
              [("a.html", Demo.doc_a); ("b.html", Demo.doc_b)] Demo.w0
              (Demo.value_of (mkCollected [] [] [])
                 (extract_all [("a.html", Demo.doc_a); ("b.html", Demo.doc_b)]
                    Demo.w0))
              (snd (extract_all [("a.html", Demo.doc_a); ("b.html", Demo.doc_b)]
                      Demo.w0))
              eq_refl) as [Hcount _].
  split; [exact (Hcount Income)|exact (Hcount Balance)].
Defined.

Lemma summary_counts_are_accurate_witness :
  let E := Demo.service 200 "{}" Demo.doc_a in
  exists w' before,
    main_on E [Demo.file] Demo.w0 = (Ret tt, w') /\
    log w' = before ++
             [(INFO, "Total files processed: 1");
              (INFO, "Income statements extracted: 1");
              (INFO, "Balance sheets extracted: 1");
              (INFO, "Cash flow statements extracted: 0")].
Proof.
  intros E.
  apply (summary_counts_are_accurate E [Demo.file] Demo.w0
           [(Demo.file, Demo.doc_a)]
           (snd (convert_all E [Demo.file] Demo.w0))
           (Demo.value_of (mkCollected [] [] [])
              (extract_all [(Demo.file, Demo.doc_a)]
                 (snd (convert_all E [Demo.file] Demo.w0))))
           (snd (extract_all [(Demo.file, Demo.doc_a)]
                   (snd (convert_all E [Demo.file] Demo.w0)))));
    reflexivity.
Defined.

Lemma extracted_table_is_well_formed_witness :
  rectangular (table_of "period" Demo.income "a.html") /\
  NoDup (columns (table_of "period" Demo.income "a.html")) /\
  NoDup (DF.index (table_of "period" Demo.income "a.html")) /\
  In source_column (columns (table_of "period" Demo.income "a.html")).
Proof.
  apply (extracted_table_is_well_formed Income Demo.doc_a "a.html" Demo.w0).
  reflexivity.
Defined.

Lemma cells_are_reported_or_empty_witness :
  exists x,
    DF.loc_get (table_of "period" Demo.income "a.html") "Cost" (SStr "2021") =
    Some x /\
    (forall v, x = CVal v ->
               reports "period" Demo.income "Cost" (SStr "2021") v) /\
    ((forall v, ~ reports "period" Demo.income "Cost" (SStr "2021") v) ->
     is_empty_cell x = true).
Proof.
  apply (cells_are_reported_or_empty Income Demo.doc_a "a.html" Demo.w0
           (table_of "period" Demo.income "a.html") Demo.income
           "Cost" (SStr "2021"));
    [reflexivity|reflexivity|right; now left|now left|discriminate].
Defined.

Lemma concat_fills_missing_columns_witness :
  DF.column (DF.concat_rows [table_of "period" Demo.income "a.html";
                             table_of "date" Demo.balance "a.html"])
            (SStr "2020") =
  [Some (CVal (SStr "8")); Some CNaN; Some CNaN].
Proof.
  apply (proj2 (proj2 (proj2
           (concat_fills_missing_columns
              [table_of "period" Demo.income "a.html";
               table_of "date" Demo.balance "a.html"]
              _ eq_refl
              (Forall_cons _ (ProvenanceFacts.table_of_rectangular _ _ _)
                 (Forall_cons _ (ProvenanceFacts.table_of_rectangular _ _ _)
                    (Forall_nil _))))))
           (SStr "2020")).
  right; now left.
Defined.

Lemma combined_files_of_a_run_witness :
  let E := Demo.service 200 "{}" Demo.doc_b in
  written (snd (main_on E [Demo.file] Demo.w0)) =
  [(income_csv,
    DF.concat_rows [table_of "period" [("Revenue", [Demo.obs "2021" "7"])]
                             Demo.file])].
Proof.
  intros E.
  apply (combined_files_of_a_run E [Demo.file] Demo.w0
           [(Demo.file, Demo.doc_b)]
           (snd (convert_all E [Demo.file] Demo.w0))
           (Demo.value_of (mkCollected [] [] [])
              (extract_all [(Demo.file, Demo.doc_b)]
                 (snd (convert_all E [Demo.file] Demo.w0))))
           (snd (extract_all [(Demo.file, Demo.doc_b)]
                   (snd (convert_all E [Demo.file] Demo.w0)))));
    reflexivity.
Defined.

Lemma nothing_converted_nothing_written_witness :
  exists w' before,
    main_on (Demo.service 404 "Not Found" Demo.doc_a) [Demo.file] Demo.w0 =
    (Ret tt, w') /\
    fst (convert_all (Demo.service 404 "Not Found" Demo.doc_a) [Demo.file]
           Demo.w0) = Ret [] /\
    written w' = written Demo.w0 /\
    log w' = before ++ summary [].
Proof.
  apply (nothing_converted_nothing_written
           (Demo.service 404 "Not Found" Demo.doc_a) [Demo.file] Demo.w0).
  intros n r resp H; inversion H; subst; discriminate.
Defined.
